(** * AudioProcessor: a shallow embedding of the Cleanvoice client

    The development follows [audio_processor.py] (the request builder, the
    API client and the completion poller) and
    [interactive_audio_processor.py] (file discovery, the per-command
    driver and the start-up code).

    Python dictionaries used as configurations are finite maps from
    strings to JSON values; exceptions are values of [exn]; the network,
    the clock and the console are an explicit [world] threaded through a
    state-and-exception monad, the remote service being a function of the
    requests seen so far. *)

From Stdlib Require Import ZArith List Lia Ascii String.
From stdpp Require Import gmap strings list fin_maps pretty.

Local Open Scope string_scope.
Local Open Scope list_scope.
Local Open Scope Z_scope.

(** ** JSON values and Python exceptions *)

#[warnings="-register-all"]
Inductive json : Type :=
| JNull
| JBool (b : bool)
| JInt (z : Z)
| JStr (s : string)
| JList (l : list json)
| JObj (fields : list (string * json)).

(** A response of the service, as [requests] presents it.  [resp_error] is
    the text [str(e)] of the [HTTPError] that [raise_for_status] builds for
    this response. *)
Record response := Response {
  status_code : Z;
  resp_body : json;
  resp_error : string
}.

(** [requests.exceptions.RequestException]: its text and its [response]
    attribute ([None] when no response was received). *)
Record request_exception := RequestExc {
  exc_str : string;
  exc_response : option response
}.

Inductive exn : Type :=
| ValueError (msg : string)
| KeyError (key : string)
| TypeError (msg : string)
| AttributeError (msg : string)
| OSError (msg : string)
| RequestException (e : request_exception)
| Exception (msg : string)
| SystemExit (code : Z).

(** [str(e)] *)
Definition exn_str (e : exn) : string :=
  match e with
  | ValueError msg | TypeError msg | AttributeError msg | OSError msg | Exception msg => msg
  | KeyError key => "'" +:+ key +:+ "'"
  | RequestException e => exc_str e
  | SystemExit code => pretty code
  end.

Inductive outcome (A : Type) : Type :=
| Return (a : A)
| Raise (e : exn).
Arguments Return {A} a.
Arguments Raise {A} e.

(** ** The world: requests, clock, console *)

(** The two shapes of the [files] argument, [Union[str, List[str]]]. *)
Inductive files_arg : Type :=
| OneFile (url : string)
| FileList (urls : list string).

(** The body of [POST /edits]: [{'input': {'files': ..., 'config': ...}}]. *)
Record payload := Payload {
  input_files : list string;
  input_config : gmap string json
}.

Inductive request : Type :=
| PostEdits (p : payload)
| PostUpload (filename : string)
| PutBytes (url : string) (data : string)
| GetEdit (edit_id : string)
| DeleteEdit (edit_id : string)
| GetUrl (url : string).

(** What a call of [requests.post/put/get/delete] does: it hands back a
    response, or raises without one (connection refused, timeout, ...). *)
Inductive http_reply : Type :=
| Responded (r : response)
| Failed (e : request_exception).

Inductive event : Type :=
| Http (at_ms : Z) (r : request)
| Slept (at_ms : Z) (ms : Z)
| Printed (line : string).

(** The collaborators.  The service answers a request knowing the requests
    made before it; a request takes [rtt] milliseconds; [time.sleep] may
    return [oversleep] milliseconds late; [read_file] is [open(p,'rb').read()];
    [glob] is [glob.glob(pattern, recursive=False)] in the working directory;
    [render] is [str(v)] of a decoded JSON value that is not a string;
    [url_error] is the text of the exception [requests.put] raises, before
    anything is sent, when it is given a URL that is not a string. *)
Record env := Env {
  serve : list request -> request -> http_reply;
  rtt : list request -> request -> Z;
  oversleep : Z -> Z;
  read_file : string -> option string;
  glob : string -> list string;
  render : json -> string;
  url_error : json -> string
}.

(** [now] is [time.time() * 1000]; [events] is the history, latest first. *)
Record world := World {
  now : Z;
  events : list event
}.

Definition requests_of (evs : list event) : list request :=
  omap (fun ev => match ev with Http _ r => Some r | _ => None end) evs.

Definition M (A : Type) : Type := world -> outcome A * world.

Definition ret {A} (a : A) : M A := fun w => (Return a, w).
Definition raise {A} (e : exn) : M A := fun w => (Raise e, w).
Definition bind {A B} (m : M A) (k : A -> M B) : M B :=
  fun w => match m w with
           | (Return a, w') => k a w'
           | (Raise e, w') => (Raise e, w')
           end.
Definition lift {A} (o : outcome A) : M A := fun w => (o, w).

(** [try: m except requests.exceptions.RequestException as e: h e] *)
Definition try_request {A} (m : M A) (h : request_exception -> M A) : M A :=
  fun w => match m w with
           | (Raise (RequestException e), w') => h e w'
           | r => r
           end.

Notation "x <- m ;; k" := (bind m (fun x => k))
  (at level 100, m at next level, right associativity).
Notation "m ;;; k" := (bind m (fun _ => k))
  (at level 100, right associativity).

Definition print (line : string) : M unit :=
  fun w => (Return tt, World (now w) (Printed line :: events w)).

(** One call into [requests]: the request is recorded with the time it was
    issued at, the clock advances by the round trip. *)
Definition http (E : env) (r : request) : M response :=
  fun w =>
    let seen := requests_of (events w) in
    let w' := World (now w + rtt E seen r) (Http (now w) r :: events w) in
    match serve E seen r with
    | Responded resp => (Return resp, w')
    | Failed e => (Raise (RequestException e), w')
    end.

(** [Response.ok], which is also the truth value of a response. *)
Definition resp_ok (r : response) : bool := negb (400 <=? status_code r) || (600 <=? status_code r).

Definition raise_for_status (r : response) : M unit :=
  if resp_ok r then ret tt
  else raise (RequestException (RequestExc (resp_error r) (Some r))).

(** ** Dictionaries *)

Fixpoint assoc (k : string) (fields : list (string * json)) : option json :=
  match fields with
  | [] => None
  | (k', v) :: rest => if String.eqb k k' then Some v else assoc k rest
  end.

(** [d[k]] *)
Definition subscript (d : json) (k : string) : outcome json :=
  match d with
  | JObj fields =>
      match assoc k fields with
      | Some v => Return v
      | None => Raise (KeyError k)
      end
  | _ => Raise (TypeError "not subscriptable with a string key")
  end.

(** [{**base, **extra}]: the entries of [base], then those of [extra] on top. *)
Definition spread (base extra : gmap string json) : gmap string json :=
  extra ∪ base.

(** [x if x is not None else {}] *)
Definition or_empty (d : option (gmap string json)) : gmap string json :=
  match d with Some m => m | None => ∅ end.

(** [type(v).__name__] of a decoded JSON value. *)
Definition py_type_name (v : json) : string :=
  match v with
  | JNull => "NoneType"
  | JBool _ => "bool"
  | JInt _ => "int"
  | JStr _ => "str"
  | JList _ => "list"
  | JObj _ => "dict"
  end.

(** [f'{v}'] of a decoded JSON value: a string is itself. *)
Definition format_value (E : env) (v : json) : string :=
  match v with
  | JStr s => s
  | _ => render E v
  end.

(** [e.response.json().get('message', str(e)) if e.response else str(e)],
    as it is formatted into the message of the handlers.  The expression is
    evaluated inside the handler: on a body that is not an object, [.get]
    raises [AttributeError] from there. *)
Definition error_msg (E : env) (e : request_exception) : outcome string :=
  match exc_response e with
  | Some r =>
      if resp_ok r then
        match resp_body r with
        | JObj fields =>
            match assoc "message" fields with
            | Some v => Return (format_value E v)
            | None => Return (exc_str e)
            end
        | other =>
            Raise (AttributeError ("'" +:+ py_type_name other +:+ "' object has no attribute 'get'"))
        end
      else Return (exc_str e)
  | None => Return (exc_str e)
  end.

(** A dictionary display [{k1: v1, k2: v2, ...}]: entries are stored left
    to right, a later entry replacing an earlier one with the same key. *)
Definition dict_literal (entries : list (string * json)) : gmap string json :=
  foldl (fun d kv => <[kv.1 := kv.2]> d) ∅ entries.

(** ** [class AudioProcessor] *)

Module AudioProcessor.
Section Client.

Variable E : env.

(** [files if isinstance(files, list) else [files]] *)
Definition file_array (files : files_arg) : list string :=
  match files with
  | FileList l => l
  | OneFile f => [f]
  end.

Definition process_audio (files : files_arg) (config : option (gmap string json)) : M json :=
  try_request
    (let config := or_empty config in
     let file_array := file_array files in
     let payload := Payload file_array config in
     response <- http E (PostEdits payload) ;;
     raise_for_status response ;;;
     ret (resp_body response))
    (fun e => error_msg <- lift (error_msg E e) ;;
              raise (Exception ("Failed to process audio: " +:+ error_msg))).

Definition remove_silences (files : files_arg) (additional_config : option (gmap string json)) : M json :=
  let additional_config := or_empty additional_config in
  let config := spread (dict_literal [("long_silences", JBool true)]) additional_config in
  process_audio files (Some config).

Definition remove_stutters (files : files_arg) (additional_config : option (gmap string json)) : M json :=
  let additional_config := or_empty additional_config in
  let config := spread (dict_literal [("stutters", JBool true)]) additional_config in
  process_audio files (Some config).

Definition remove_fillers (files : files_arg) (additional_config : option (gmap string json)) : M json :=
  let additional_config := or_empty additional_config in
  let config := spread (dict_literal [("fillers", JBool true)]) additional_config in
  process_audio files (Some config).

Definition remove_mouth_sounds (files : files_arg) (additional_config : option (gmap string json)) : M json :=
  let additional_config := or_empty additional_config in
  let config := spread (dict_literal [("mouth_sounds", JBool true)]) additional_config in
  process_audio files (Some config).

Definition remove_hesitations (files : files_arg) (additional_config : option (gmap string json)) : M json :=
  let additional_config := or_empty additional_config in
  let config := spread (dict_literal [("hesitations", JBool true)]) additional_config in
  process_audio files (Some config).

Definition mute_segments (files : files_arg) (mute_lufs : Z) (additional_config : option (gmap string json)) : M json :=
  let additional_config := or_empty additional_config in
  let config := spread (dict_literal [("muted", JBool true); ("mute_lufs", JInt mute_lufs)]) additional_config in
  process_audio files (Some config).

Definition denoise_audio (files : files_arg) (keep_music : bool) (additional_config : option (gmap string json)) : M json :=
  let additional_config := or_empty additional_config in
  let config := spread (dict_literal [("remove_noise", JBool true); ("keep_music", JBool keep_music)]) additional_config in
  process_audio files (Some config).

Definition preserve_music (files : files_arg) (additional_config : option (gmap string json)) : M json :=
  let additional_config := or_empty additional_config in
  let config := spread (dict_literal [("keep_music", JBool true)]) additional_config in
  process_audio files (Some config).

Definition reduce_breath_sounds (files : files_arg) (mute_lufs : Z) (additional_config : option (gmap string json)) : M json :=
  let additional_config := or_empty additional_config in
  let config := spread (dict_literal [("breath", JBool true); ("mute_lufs", JInt mute_lufs)]) additional_config in
  process_audio files (Some config).

Definition normalize_audio (files : files_arg) (target_lufs : Z) (additional_config : option (gmap string json)) : M json :=
  let additional_config := or_empty additional_config in
  let config := spread (dict_literal [("normalize", JBool true); ("target_lufs", JInt target_lufs)]) additional_config in
  process_audio files (Some config).

Definition apply_autoeq (files : files_arg) (additional_config : option (gmap string json)) : M json :=
  let additional_config := or_empty additional_config in
  let config := spread (dict_literal [("autoeq", JBool true)]) additional_config in
  process_audio files (Some config).

Definition enhance_with_ai (files : files_arg) (additional_config : option (gmap string json)) : M json :=
  let additional_config := or_empty additional_config in
  let config := spread (dict_literal [("sound_studio", JBool true)]) additional_config in
  process_audio files (Some config).

Definition set_mute_lufs (files : files_arg) (mute_lufs : Z) (additional_config : option (gmap string json)) : M json :=
  if 0 <? mute_lufs then raise (ValueError "mute_lufs must be a negative integer")
  else
    let additional_config := or_empty additional_config in
    let config := spread (dict_literal [("mute_lufs", JInt mute_lufs)]) additional_config in
    process_audio files (Some config).

Definition set_target_lufs (files : files_arg) (target_lufs : Z) (additional_config : option (gmap string json)) : M json :=
  if 0 <=? target_lufs then raise (ValueError "target_lufs must be less than 0")
  else
    let additional_config := or_empty additional_config in
    let config := spread (dict_literal [("target_lufs", JInt target_lufs)]) additional_config in
    process_audio files (Some config).

Definition valid_formats : list string := ["auto"; "mp3"; "wav"; "flac"; "m4a"].

Definition export_audio (files : files_arg) (format : string) (additional_config : option (gmap string json)) : M json :=
  if negb (bool_decide (format ∈ valid_formats)) then
    raise (ValueError ("Invalid export format. Must be one of: " +:+ String.concat ", " valid_formats))
  else
    let additional_config := or_empty additional_config in
    let config := spread (dict_literal [("export_format", JStr format)]) additional_config in
    process_audio files (Some config).

Definition transcribe_audio (files : files_arg) (additional_config : option (gmap string json)) : M json :=
  let additional_config := or_empty additional_config in
  let config := spread (dict_literal [("transcription", JBool true)]) additional_config in
  process_audio files (Some config).

Definition summarize_audio (files : files_arg) (additional_config : option (gmap string json)) : M json :=
  let additional_config := or_empty additional_config in
  let config := spread (dict_literal [("transcription", JBool true); ("summarize", JBool true)]) additional_config in
  process_audio files (Some config).

Definition create_social_content (files : files_arg) (additional_config : option (gmap string json)) : M json :=
  let additional_config := or_empty additional_config in
  let config := spread (dict_literal [("transcription", JBool true); ("summarize", JBool true);
                                      ("social_content", JBool true)]) additional_config in
  process_audio files (Some config).

(** [not isinstance(files, list) or len(files) < 2] *)
Definition too_few_tracks (files : files_arg) : bool :=
  match files with
  | OneFile _ => true
  | FileList l => (Z.of_nat (length l) <? 2)
  end.

Definition merge_tracks (files : files_arg) (normalize : bool) (additional_config : option (gmap string json)) : M json :=
  if too_few_tracks files then
    raise (ValueError "merge_tracks requires a list of at least 2 file URLs")
  else
    let additional_config := or_empty additional_config in
    let config := spread (dict_literal [("merge", JBool true); ("normalize", JBool normalize)]) additional_config in
    process_audio files (Some config).

Definition comprehensive_defaults : list (string * json) :=
  [ ("long_silences", JBool true); ("stutters", JBool true); ("fillers", JBool true);
    ("mouth_sounds", JBool true); ("hesitations", JBool true); ("remove_noise", JBool true);
    ("breath", JBool true);
    ("normalize", JBool true); ("target_lufs", JInt (-16)); ("sound_studio", JBool true);
    ("export_format", JStr "mp3");
    ("transcription", JBool false); ("summarize", JBool false);
    ("social_content", JBool false); ("export_timestamps", JBool false) ].

Definition enhance_audio_comprehensive (files : files_arg) (options : option (gmap string json)) : M json :=
  let options := or_empty options in
  let default_config := spread (dict_literal comprehensive_defaults) options in
  process_audio files (Some default_config).

(** [with open(file_path, 'rb') as file: file_data = file.read()] *)
Definition open_read (file_path : string) : M string :=
  match read_file E file_path with
  | Some data => ret data
  | None => raise (OSError ("No such file or directory: '" +:+ file_path +:+ "'"))
  end.

Definition upload_file (file_path filename : string) : M string :=
  try_request
    ((* Step 1: Get signed URL *)
     upload_response <- http E (PostUpload filename) ;;
     raise_for_status upload_response ;;;
     signed_url <- lift (subscript (resp_body upload_response) "signedUrl") ;;
     (* Step 2: Upload file to signed URL *)
     file_data <- open_read file_path ;;
     match signed_url with
     | JStr url =>
         upload_put_response <- http E (PutBytes url file_data) ;;
         raise_for_status upload_put_response ;;;
         ret url
     | _ =>
         (* requests.put refuses a URL that is not a string: nothing is sent *)
         raise (RequestException (RequestExc (url_error E signed_url) None))
     end)
    (fun e => error_msg <- lift (error_msg E e) ;;
              raise (Exception ("Failed to upload file: " +:+ error_msg))).

Definition get_edit_status (edit_id : string) : M json :=
  try_request
    (response <- http E (GetEdit edit_id) ;;
     raise_for_status response ;;;
     ret (resp_body response))
    (fun e => error_msg <- lift (error_msg E e) ;;
              raise (Exception ("Failed to get edit status: " +:+ error_msg))).

(** [time.sleep(ms / 1000)] *)
Definition sleep_ms (ms : Z) : M unit :=
  fun w =>
    if ms <? 0 then (Raise (ValueError "sleep length must be non-negative"), w)
    else (Return tt, World (now w + ms + oversleep E (now w)) (Slept (now w) ms :: events w)).

(** [v == s] for a string literal [s] *)
Definition is_str (v : json) (s : string) : bool :=
  match v with
  | JStr x => String.eqb x s
  | _ => false
  end.

(** The [while] loop of [wait_for_completion]; [fuel] bounds the number of
    iterations, [None] is a loop that has not finished within it. *)
Fixpoint wait_loop (fuel : nat) (edit_id : string) (poll_interval max_wait_time start_time : Z)
    (w : world) : option (outcome json * world) :=
  match fuel with
  | O => None
  | S fuel' =>
      if now w - start_time <? max_wait_time then
        match get_edit_status edit_id w with
        | (Raise e, w1) => Some (Raise e, w1)
        | (Return status, w1) =>
            match subscript status "status" with
            | Raise e => Some (Raise e, w1)
            | Return st =>
                if is_str st "SUCCESS" then Some (Return status, w1)
                else if is_str st "FAILURE" then Some (Raise (Exception "Edit job failed"), w1)
                else
                  (* Wait before next poll *)
                  match sleep_ms poll_interval w1 with
                  | (Raise e, w2) => Some (Raise e, w2)
                  | (Return _, w2) =>
                      wait_loop fuel' edit_id poll_interval max_wait_time start_time w2
                  end
            end
        end
      else Some (Raise (Exception "Edit job timed out"), w)
  end.

Definition wait_for_completion (fuel : nat) (edit_id : string) (poll_interval max_wait_time : Z)
    (w : world) : option (outcome json * world) :=
  let start_time := now w in
  wait_loop fuel edit_id poll_interval max_wait_time start_time w.

Definition delete_edit (edit_id : string) : M json :=
  try_request
    (response <- http E (DeleteEdit edit_id) ;;
     raise_for_status response ;;;
     ret (resp_body response))
    (fun e => error_msg <- lift (error_msg E e) ;;
              raise (Exception ("Failed to delete edit: " +:+ error_msg))).

End Client.
End AudioProcessor.

(** ** [class InteractiveAudioProcessor] *)

(** The double quote character, for the messages that contain it. *)
Definition dq : string :=
  String (Ascii.Ascii false true false false false true false false) EmptyString.

(** The newline character. *)
Definition nl : string :=
  String (Ascii.Ascii false true false true false false false false) EmptyString.

(** A positional argument stored in [function_map]. *)
Inductive arg : Type :=
| ABool (b : bool)
| AInt (z : Z)
| ADict (d : gmap string json).

Record command_entry := CommandEntry {
  func : string;
  name : string;
  params : list arg
}.

Module InteractiveAudioProcessor.

Definition auto_format : arg := ADict (dict_literal [("export_format", JStr "auto")]).

Definition function_map : list (string * command_entry) :=
  [ ("rm bg", CommandEntry "denoise_audio" "Remove Background Noise"
                [ABool false; ADict (dict_literal [("normalize", JBool true)])]);
    ("rm silence", CommandEntry "remove_silences" "Remove Long Silences" [auto_format]);
    ("rm stutter", CommandEntry "remove_stutters" "Remove Stutters" [auto_format]);
    ("rm filler", CommandEntry "remove_fillers" "Remove Filler Words" [auto_format]);
    ("rm mouth", CommandEntry "remove_mouth_sounds" "Remove Mouth Sounds" [auto_format]);
    ("rm hesitation", CommandEntry "remove_hesitations" "Remove Hesitations" [auto_format]);
    ("rm breath", CommandEntry "reduce_breath_sounds" "Reduce Breath Sounds" [AInt (-80); auto_format]);
    ("normalize", CommandEntry "normalize_audio" "Normalize Audio Levels" [AInt (-16); auto_format]);
    ("ai enhance", CommandEntry "enhance_with_ai" "AI Sound Enhancement" [auto_format]);
    ("preserve music", CommandEntry "preserve_music" "Preserve Music Segments" [auto_format]);
    ("transcribe", CommandEntry "transcribe_audio" "Transcribe Audio to Text" [auto_format]);
    ("comprehensive", CommandEntry "enhance_audio_comprehensive" "Comprehensive Enhancement"
                [ADict (dict_literal [("export_format", JStr "auto"); ("transcription", JBool true)])]) ].

(** [self.function_map.get(command)] *)
Fixpoint get_command (table : list (string * command_entry)) (command : string) : option command_entry :=
  match table with
  | [] => None
  | (k, e) :: rest => if String.eqb command k then Some e else get_command rest command
  end.

Definition supported_extensions : list string := [".mp3"; ".wav"; ".m4a"; ".flac"; ".aac"].

(** [os.path.basename]: what follows the last slash. *)
Fixpoint basename_from (acc : string) (p : string) : string :=
  match p with
  | EmptyString => acc
  | String c rest =>
      if Ascii.eqb c "/"%char then basename_from rest rest
      else basename_from acc rest
  end.
Definition basename (p : string) : string := basename_from p p.

Section Driver.

Variable E : env.
(** [str(v)] of a JSON value inside an f-string. *)
Variable py_str : json -> string.
(** What [process_audio_file] does once the job has completed: download the
    artefact and print the summary. *)
Variable download_and_report : string -> string -> json -> M unit.

(** The [for ext in supported_extensions] loop of [find_audio_file]. *)
Fixpoint find_in (exts : list string) : option (string * string) :=
  match exts with
  | [] => None
  | ext :: rest =>
      let pattern := "*" +:+ ext in
      let files := glob E pattern in
      match files with
      | file_path :: _ => Some (file_path, basename file_path)
      | [] => find_in rest
      end
  end.

Definition find_audio_file : option (string * string) := find_in supported_extensions.

(** [getattr(self.processor, func)(signed_url, *params)] *)
Definition call_method (func : string) (signed_url : string) (params : list arg) : M json :=
  let files := OneFile signed_url in
  match params with
  | [ADict d] =>
      if String.eqb func "remove_silences" then AudioProcessor.remove_silences E files (Some d)
      else if String.eqb func "remove_stutters" then AudioProcessor.remove_stutters E files (Some d)
      else if String.eqb func "remove_fillers" then AudioProcessor.remove_fillers E files (Some d)
      else if String.eqb func "remove_mouth_sounds" then AudioProcessor.remove_mouth_sounds E files (Some d)
      else if String.eqb func "remove_hesitations" then AudioProcessor.remove_hesitations E files (Some d)
      else if String.eqb func "enhance_with_ai" then AudioProcessor.enhance_with_ai E files (Some d)
      else if String.eqb func "preserve_music" then AudioProcessor.preserve_music E files (Some d)
      else if String.eqb func "transcribe_audio" then AudioProcessor.transcribe_audio E files (Some d)
      else if String.eqb func "enhance_audio_comprehensive"
           then AudioProcessor.enhance_audio_comprehensive E files (Some d)
      else raise (TypeError func)
  | [ABool b; ADict d] =>
      if String.eqb func "denoise_audio" then AudioProcessor.denoise_audio E files b (Some d)
      else raise (TypeError func)
  | [AInt z; ADict d] =>
      if String.eqb func "reduce_breath_sounds" then AudioProcessor.reduce_breath_sounds E files z (Some d)
      else if String.eqb func "normalize_audio" then AudioProcessor.normalize_audio E files z (Some d)
      else raise (TypeError func)
  | _ => raise (TypeError func)
  end.

(** [except Exception as e:] at the end of [process_audio_file];
    [SystemExit] is not an [Exception]. *)
Definition report_error (r : outcome unit * world) : outcome unit * world :=
  match r with
  | (Raise (SystemExit c), w) => (Raise (SystemExit c), w)
  | (Raise e, w) =>
      (print ("❌ Error processing audio: " +:+ exn_str e) ;;;
       print (nl +:+ "💡 Make sure your API key is correct and you have internet connection")) w
  | ok => ok
  end.

Definition process_audio_file (fuel : nat) (command : string) (w : world) : option (outcome unit * world) :=
  match get_command function_map command with
  | None =>
      Some (print ("❌ Unknown command. Type " +:+ dq +:+ "help" +:+ dq +:+ " to see available commands.") w)
  | Some config =>
      let '(_, w) := (print (nl +:+ "🎵 " +:+ name config) ;;; print ("================" +:+ nl)) w in
      (* Look for audio files in the current directory *)
      match find_audio_file with
      | None =>
          Some ((print "❌ No supported audio file found in the current directory" ;;;
                 print "💡 Supported formats: MP3, WAV, M4A, FLAC, AAC") w)
      | Some (file_path, filename) =>
          let before_wait :=
            (print ("📁 Found audio file: " +:+ filename) ;;;
             print "📤 Uploading file to Cleanvoice servers..." ;;;
             (* Upload the file *)
             signed_url <- AudioProcessor.upload_file E file_path filename ;;
             print "✅ File uploaded successfully!" ;;;
             (* Process the audio *)
             print (nl +:+ "🔧 Processing audio with " +:+ name config +:+ "...") ;;;
             processing_job <- call_method (func config) signed_url (params config) ;;
             print "✅ Processing job created!" ;;;
             job_id <- lift (subscript processing_job "id") ;;
             print ("🆔 Job ID: " +:+ py_str job_id) ;;;
             (* Wait for completion *)
             print (nl +:+ "⏳ Waiting for processing to complete...") ;;;
             print ("This may take a few minutes depending on the file size..." +:+ nl) ;;;
             job_id' <- lift (subscript processing_job "id") ;;
             ret (py_str job_id')) w in
          match before_wait with
          | (Raise e, w1) => Some (report_error (Raise e, w1))
          | (Return edit_id, w1) =>
              match AudioProcessor.wait_for_completion E fuel edit_id 5000 300000 w1 with
              | None => None
              | Some (Raise e, w2) => Some (report_error (Raise e, w2))
              | Some (Return result, w2) =>
                  Some (report_error (download_and_report filename command result w2))
              end
          end
      end
  end.

End Driver.
End InteractiveAudioProcessor.

(** ** [main] *)

(** [os.getenv(key, default)] *)
Definition getenv (environ : gmap string string) (key default : string) : string :=
  match environ !! key with
  | Some v => v
  | None => default
  end.

(** [main]; [run] stands for [InteractiveAudioProcessor(api_key).run()]. *)
Definition main (environ : gmap string string) (run : string -> M unit) : M unit :=
  let api_key := getenv environ "CLEANVOICE_API_KEY" "FJB8s8nbmY9UQcfeXFeB6tqJmjwDUkKN" in
  if String.eqb api_key "" then
    print "❌ Please set your Cleanvoice API key in the CLEANVOICE_API_KEY environment variable" ;;;
    print "   or modify the api_key variable in the script" ;;;
    raise (SystemExit 1)
  else run api_key.

(** ** The operations as one family

    The request builder's methods, gathered so that a property can be stated
    once for all of them. *)

Inductive operation : Type :=
| RemoveSilences
| RemoveStutters
| RemoveFillers
| RemoveMouthSounds
| RemoveHesitations
| MuteSegments (mute_lufs : Z)
| DenoiseAudio (keep_music : bool)
| PreserveMusic
| ReduceBreathSounds (mute_lufs : Z)
| NormalizeAudio (target_lufs : Z)
| ApplyAutoeq
| EnhanceWithAi
| SetMuteLufs (mute_lufs : Z)
| SetTargetLufs (target_lufs : Z)
| ExportAudio (format : string)
| TranscribeAudio
| SummarizeAudio
| CreateSocialContent
| MergeTracks (normalize : bool)
| EnhanceAudioComprehensive.

Definition invoke (E : env) (op : operation) (files : files_arg)
    (additional_config : option (gmap string json)) : M json :=
  match op with
  | RemoveSilences => AudioProcessor.remove_silences E files additional_config
  | RemoveStutters => AudioProcessor.remove_stutters E files additional_config
  | RemoveFillers => AudioProcessor.remove_fillers E files additional_config
  | RemoveMouthSounds => AudioProcessor.remove_mouth_sounds E files additional_config
  | RemoveHesitations => AudioProcessor.remove_hesitations E files additional_config
  | MuteSegments z => AudioProcessor.mute_segments E files z additional_config
  | DenoiseAudio b => AudioProcessor.denoise_audio E files b additional_config
  | PreserveMusic => AudioProcessor.preserve_music E files additional_config
  | ReduceBreathSounds z => AudioProcessor.reduce_breath_sounds E files z additional_config
  | NormalizeAudio z => AudioProcessor.normalize_audio E files z additional_config
  | ApplyAutoeq => AudioProcessor.apply_autoeq E files additional_config
  | EnhanceWithAi => AudioProcessor.enhance_with_ai E files additional_config
  | SetMuteLufs z => AudioProcessor.set_mute_lufs E files z additional_config
  | SetTargetLufs z => AudioProcessor.set_target_lufs E files z additional_config
  | ExportAudio f => AudioProcessor.export_audio E files f additional_config
  | TranscribeAudio => AudioProcessor.transcribe_audio E files additional_config
  | SummarizeAudio => AudioProcessor.summarize_audio E files additional_config
  | CreateSocialContent => AudioProcessor.create_social_content E files additional_config
  | MergeTracks b => AudioProcessor.merge_tracks E files b additional_config
  | EnhanceAudioComprehensive => AudioProcessor.enhance_audio_comprehensive E files additional_config
  end.

(** The flags each operation is documented to set (spec, section 3 and the
    methods' docstrings), the operation's own parameters included. *)
Definition documented_defaults (op : operation) : gmap string json :=
  match op with
  | RemoveSilences => {[ "long_silences" := JBool true ]}
  | RemoveStutters => {[ "stutters" := JBool true ]}
  | RemoveFillers => {[ "fillers" := JBool true ]}
  | RemoveMouthSounds => {[ "mouth_sounds" := JBool true ]}
  | RemoveHesitations => {[ "hesitations" := JBool true ]}
  | MuteSegments z => <[ "mute_lufs" := JInt z ]> {[ "muted" := JBool true ]}
  | DenoiseAudio b => <[ "keep_music" := JBool b ]> {[ "remove_noise" := JBool true ]}
  | PreserveMusic => {[ "keep_music" := JBool true ]}
  | ReduceBreathSounds z => <[ "mute_lufs" := JInt z ]> {[ "breath" := JBool true ]}
  | NormalizeAudio z => <[ "target_lufs" := JInt z ]> {[ "normalize" := JBool true ]}
  | ApplyAutoeq => {[ "autoeq" := JBool true ]}
  | EnhanceWithAi => {[ "sound_studio" := JBool true ]}
  | SetMuteLufs z => {[ "mute_lufs" := JInt z ]}
  | SetTargetLufs z => {[ "target_lufs" := JInt z ]}
  | ExportAudio f => {[ "export_format" := JStr f ]}
  | TranscribeAudio => {[ "transcription" := JBool true ]}
  | SummarizeAudio => <[ "summarize" := JBool true ]> {[ "transcription" := JBool true ]}
  | CreateSocialContent =>
      <[ "social_content" := JBool true ]>
        (<[ "summarize" := JBool true ]> {[ "transcription" := JBool true ]})
  | MergeTracks b => <[ "normalize" := JBool b ]> {[ "merge" := JBool true ]}
  | EnhanceAudioComprehensive =>
      list_to_map
        [ ("long_silences", JBool true); ("stutters", JBool true); ("fillers", JBool true);
          ("mouth_sounds", JBool true); ("hesitations", JBool true);
          ("remove_noise", JBool true); ("breath", JBool true); ("normalize", JBool true);
          ("target_lufs", JInt (-16)); ("sound_studio", JBool true);
          ("export_format", JStr "mp3"); ("transcription", JBool false);
          ("summarize", JBool false); ("social_content", JBool false);
          ("export_timestamps", JBool false) ]
  end.

(** The local validation an operation performs before it builds anything. *)
Definition passes_validation (op : operation) (files : files_arg) : bool :=
  match op with
  | SetMuteLufs z => negb (0 <? z)
  | SetTargetLufs z => negb (0 <=? z)
  | ExportAudio f => bool_decide (f ∈ AudioProcessor.valid_formats)
  | MergeTracks _ => negb (AudioProcessor.too_few_tracks files)
  | _ => true
  end.

(** ** Collaborators used in the scenarios *)

(** [str] of the scalar values; the scenarios render no list or object. *)
Definition plain_render (v : json) : string :=
  match v with
  | JNull => "None"
  | JBool true => "True"
  | JBool false => "False"
  | JInt z => pretty z
  | _ => EmptyString
  end.

Definition plain_url_error (v : json) : string :=
  "Invalid URL '" +:+ plain_render v +:+ "': No scheme supplied.".

(** Requests take no negative time and [time.sleep] never returns early. *)
Definition causal (E : env) : Prop :=
  (forall seen r, 0 <= rtt E seen r) /\ (forall t, 0 <= oversleep E t).

(** How many status queries a history contains. *)
Definition count_gets (seen : list request) : nat :=
  length (List.filter (fun r => match r with GetEdit _ => true | _ => false end) seen).

Definition job (id status : string) : json :=
  JObj [("id", JStr id); ("status", JStr status)].

Definition job_done (id url : string) : json :=
  JObj [("id", JStr id); ("status", JStr "SUCCESS");
        ("result", JObj [("download_url", JStr url)])].

Definition ok (body : json) : http_reply := Responded (Response 200 body "").

(** A service whose successive status replies are [script], then [after]
    for ever; every other request is answered [other]; nothing takes time. *)
Definition scripted (script : list json) (after : json) (other : http_reply) : env :=
  Env (fun seen r =>
         match r with
         | GetEdit _ => ok (nth (count_gets seen) script after)
         | _ => other
         end)
      (fun _ _ => 0) (fun _ => 0) (fun _ => None) (fun _ => []) plain_render plain_url_error.

(** The upload handshake: [first] answers the signed-URL request, [second]
    the transfer of the bytes; the file [path] holds [data]. *)
Definition upload_env (first second : http_reply) (path data : string) : env :=
  Env (fun _ r =>
         match r with
         | PostUpload _ => first
         | _ => second
         end)
      (fun _ _ => 0) (fun _ => 0)
      (fun p => if String.eqb p path then Some data else None) (fun _ => [])
      plain_render plain_url_error.

(** [glob.glob('*' + suffix)] over the names [dir] of a directory, in the
    order the directory yields them: names that end in the suffix, hidden
    names (leading dot) excluded.  Only patterns of that form are covered. *)
Definition ends_with (suffix s : string) : bool :=
  let n := String.length s in
  let m := String.length suffix in
  (m <=? n)%nat && String.eqb (substring (n - m) m s) suffix.

Definition hidden (s : string) : bool :=
  match s with
  | String c _ => Ascii.eqb c "."%char
  | EmptyString => false
  end.

Definition glob_dir (dir : list string) (pattern : string) : list string :=
  match pattern with
  | String c suffix =>
      if Ascii.eqb c "*"%char
      then List.filter (fun s => negb (hidden s) && ends_with suffix s) dir
      else []
  | EmptyString => []
  end.

Definition dir_env (dir : list string) : env :=
  Env (fun _ _ => Failed (RequestExc "Connection refused" None))
      (fun _ _ => 0) (fun _ => 0) (fun _ => None) (glob_dir dir) plain_render plain_url_error.

Definition world0 : world := World 0 [].

(** The world after a call that reaches [process_audio] with [cfg]. *)
Definition posted (w : world) (files : files_arg) (cfg : gmap string json) : list event :=
  Http (now w) (PostEdits (Payload (AudioProcessor.file_array files) cfg)) :: events w.

(** A reply of the service that carries a job in the given state. *)
Definition reports (reply : http_reply) (status : string) (body : json) : Prop :=
  exists code err,
    reply = Responded (Response code body err)
    /\ resp_ok (Response code body err) = true
    /\ subscript body "status" = Return (JStr status).

(** A job that never leaves [PENDING]. *)
Definition always_pending (E : env) : Prop :=
  forall seen edit_id, exists body, reports (serve E seen (GetEdit edit_id)) "PENDING" body.

(** The event is not a request issued at or after [deadline]. *)
Definition before_deadline (deadline : Z) (ev : event) : Prop :=
  match ev with
  | Http t _ => t < deadline
  | _ => True
  end.

(** The world once a request [r] made in [w] has been answered. *)
Definition answered (E : env) (r : request) (w : world) : world :=
  World (now w + rtt E (requests_of (events w)) r) (Http (now w) r :: events w).

(** The world once [time.sleep(ms / 1000)] called in [w] has returned. *)
Definition rested (E : env) (ms : Z) (w : world) : world :=
  World (now w + ms + oversleep E (now w)) (Slept (now w) ms :: events w).

(** The two steps of the upload handshake, and the step at which a run of
    [upload_file] fails because the service refuses or cannot be reached. *)
Inductive upload_step : Type :=
| RequestSignedUrl
| TransferBytes.

Definition reply_fails (reply : http_reply) : bool :=
  match reply with
  | Responded r => negb (resp_ok r)
  | Failed _ => true
  end.

Definition failed_step (E : env) (file_path filename : string) (w : world) : option upload_step :=
  let seen := requests_of (events w) in
  let first := serve E seen (PostUpload filename) in
  if reply_fails first then Some RequestSignedUrl
  else
    match first with
    | Responded r1 =>
        match subscript (resp_body r1) "signedUrl", read_file E file_path with
        | Return (JStr url), Some data =>
            if reply_fails (serve E (PostUpload filename :: seen) (PutBytes url data))
            then Some TransferBytes
            else None
        | _, _ => None
        end
    | Failed _ => None
    end.

(** The error raised by [upload_file] tells which step failed: some reading
    [step_of] of the exception recovers the step in every run. *)
Definition carries_step_context (step_of : exn -> upload_step) : Prop :=
  forall E file_path filename w e st,
    fst (AudioProcessor.upload_file E file_path filename w) = Raise e ->
    failed_step E file_path filename w = Some st ->
    step_of e = st.

(** What reaches the caller when a request of the handshake fails. *)
(** What a handler [except RequestException as e: raise Exception(f'{prefix}{error_msg}')]
    raises for [e]. *)
Definition handled (E : env) (prefix : string) (e : request_exception) : exn :=
  match error_msg E e with
  | Return msg => Exception (prefix +:+ msg)
  | Raise raised => raised
  end.

(** The shape that [process_audio], [get_edit_status] and [delete_edit]
    share: one request, [raise_for_status], the decoded body; and what it
    yields for each reply of the service. *)
Definition exchange (E : env) (r : request) (prefix : string) : M json :=
  try_request
    (response <- http E r ;;
     raise_for_status response ;;;
     ret (resp_body response))
    (fun e => error_msg <- lift (error_msg E e) ;;
              raise (Exception (prefix +:+ error_msg))).

Definition exchange_outcome (E : env) (prefix : string) (reply : http_reply) : outcome json :=
  match reply with
  | Responded r =>
      if resp_ok r then Return (resp_body r)
      else Raise (Exception (prefix +:+ resp_error r))
  | Failed e => Raise (handled E prefix e)
  end.

Definition upload_failure (E : env) (reply : http_reply) : exn :=
  match reply with
  | Responded r => Exception ("Failed to upload file: " +:+ resp_error r)
  | Failed e =>
      match error_msg E e with
      | Return msg => Exception ("Failed to upload file: " +:+ msg)
      | Raise raised => raised
      end
  end.

Definition signed (url : string) : http_reply := ok (JObj [("signedUrl", JStr url)]).

Definition refused : request_exception := RequestExc "Connection aborted." None.

Definition api_key_variable : string := "CLEANVOICE_API_KEY".

(** ** The interactive session *)

(** The dictionary a command passes as additional configuration: the last
    of its stored arguments. *)
Definition entry_overrides (ps : list arg) : gmap string json :=
  match last ps with
  | Some (ADict d) => d
  | _ => ∅
  end.

(** The lines printed by [show_help]. *)
Definition help_lines : list string :=
  [ nl +:+ "🎵 Interactive Audio Processor (Python)";
    "=====================================";
    "Supports: Audio files (MP3, WAV, M4A, FLAC, AAC)";
    "";
    "Available commands:";
    "";
    "🔊 Audio Cleaning:";
    "  rm bg          - Remove background noise";
    "  rm silence     - Remove long silences";
    "  rm stutter     - Remove stutters";
    "  rm filler      - Remove filler words (um, uh)";
    "  rm mouth       - Remove mouth sounds";
    "  rm hesitation  - Remove hesitations";
    "  rm breath      - Reduce breath sounds";
    "";
    "🎛️ Audio Enhancement:";
    "  normalize      - Normalize audio levels";
    "  ai enhance     - AI-powered sound enhancement";
    "  preserve music - Keep music segments during edits";
    "";
    "📝 Analysis:";
    "  transcribe     - Convert speech to text";
    "";
    "🚀 All-in-One:";
    "  comprehensive  - Apply all enhancements";
    "";
    "❓ Other commands:";
    "  help           - Show this help";
    "  quit           - Exit the program";
    "";
    "📁 Supported file formats:";
    "  Audio: MP3, WAV, M4A, FLAC, AAC";
    "" ].

Definition show_help : M unit :=
  fun w => (Return tt, World (now w) (rev (map Printed help_lines) ++ events w)).

(** What a call of [input] meets on standard input: a line, or Ctrl-C.  The
    end of the list is the end of the input, where [input] raises
    [EOFError]. *)
Inductive stdin_item : Type :=
| Line (s : string)
| Interrupt.

Section Session.

Variable E : env.
Variable py_str : json -> string.
Variable download_and_report : string -> string -> json -> M unit.
(** [s.strip().lower()] *)
Variable clean : string -> string.

Definition prompt : string := nl +:+ "🎵 Enter command (or " +:+ dq +:+ "help" +:+ dq +:+ "): ".

(** The [while True] loop of [run]: [turns] bounds its iterations,
    [poll_fuel] those of the poller inside a command.  The prompt written
    by [input] is recorded like a printed line. *)
Fixpoint run_loop (turns poll_fuel : nat) (stdin : list stdin_item) (w : world)
    : option (outcome unit * world) :=
  match turns with
  | O => None
  | S turns' =>
      let w := World (now w) (Printed prompt :: events w) in
      match stdin with
      | [] =>
          (* EOFError is an Exception: reported, and the loop goes on *)
          run_loop turns' poll_fuel []
            (snd (print "❌ Unexpected error: EOF when reading a line" w))
      | Interrupt :: _ =>
          Some (print (nl +:+ nl +:+ "👋 Goodbye! Thanks for using the Audio Processor!") w)
      | Line s :: rest =>
          let command := clean s in
          if String.eqb command "quit" || String.eqb command "exit" then
            Some (print (nl +:+ "👋 Goodbye! Thanks for using the Audio Processor!") w)
          else if String.eqb command "help" then
            run_loop turns' poll_fuel rest (snd (show_help w))
          else if String.eqb command "" then
            run_loop turns' poll_fuel rest
              (snd (print ("❌ Please enter a command. Type " +:+ dq +:+ "help" +:+ dq +:+ " for options.") w))
          else
            match InteractiveAudioProcessor.process_audio_file E py_str download_and_report
                    poll_fuel command w with
            | None => None
            | Some (Return _, w') => run_loop turns' poll_fuel rest w'
            | Some (Raise (SystemExit code), w') => Some (Raise (SystemExit code), w')
            | Some (Raise e, w') =>
                run_loop turns' poll_fuel rest
                  (snd (print ("❌ Unexpected error: " +:+ exn_str e) w'))
            end
      end
  end.

Definition run (turns poll_fuel : nat) (stdin : list stdin_item) (w : world)
    : option (outcome unit * world) :=
  let w := snd ((print "🎵 Welcome to the Interactive Audio Processor (Python)!" ;;;
                 print "=====================================================" ;;;
                 show_help) w) in
  run_loop turns poll_fuel stdin w.

End Session.

(** The outcome is not a [SystemExit]. *)
Definition stays {A} (o : outcome A) : Prop :=
  match o with
  | Raise (SystemExit _) => False
  | _ => True
  end.

(** A line of input that names no command of [function_map] once cleaned,
    or Ctrl-C. *)
Definition names_no_command (clean : string -> string) (item : stdin_item) : Prop :=
  match item with
  | Line s =>
      InteractiveAudioProcessor.get_command InteractiveAudioProcessor.function_map (clean s) = None
  | Interrupt => True
  end.

(** A service on which everything succeeds at once: uploads are signed with
    [url], transfers and deletions are acknowledged, a created job has the
    id [id] and is reported done with [download]; the working directory
    holds [dir] and every file reads as [data]. *)
Definition studio_env (dir : list string) (data url id download : string) : env :=
  Env (fun _ r =>
         match r with
         | PostUpload _ => signed url
         | PostEdits _ => ok (job id "PENDING")
         | GetEdit _ => ok (job_done id download)
         | _ => ok JNull
         end)
      (fun _ _ => 0) (fun _ => 0) (fun _ => Some data) (glob_dir dir)
      plain_render plain_url_error.

(** [str] of a JSON string; other values are not rendered. *)
Definition str_of_json (v : json) : string :=
  match v with
  | JStr s => s
  | _ => EmptyString
  end.

(** A service that signs and stores uploads but refuses to create jobs. *)
Definition no_credit_env (dir : list string) (data url : string) : env :=
  Env (fun _ r =>
         match r with
         | PostUpload _ => signed url
         | PostEdits _ => Responded (Response 402 JNull "402 Client Error: Payment Required")
         | _ => ok JNull
         end)
      (fun _ _ => 0) (fun _ => 0) (fun _ => Some data) (glob_dir dir)
      plain_render plain_url_error.

(** The times at which the requests of a history were issued, latest
    first. *)
Definition request_times (evs : list event) : list Z :=
  omap (fun ev => match ev with Http t _ => Some t | _ => None end) evs.

(** Times listed latest first, each at least [gap] after the one before,
    none earlier than [from]. *)
Fixpoint spaced (gap from : Z) (times : list Z) : Prop :=
  match times with
  | [] => True
  | t :: earlier =>
      match earlier with
      | [] => from <= t
      | t0 :: _ => t0 + gap <= t /\ spaced gap from earlier
      end
  end.

(** * Properties *)

(** ** Generic facts about the monad and about dictionaries *)

Lemma spread_lookup (base extra : gmap string json) (k : string) :
  spread base extra !! k =
  match extra !! k with
  | Some v => Some v
  | None => base !! k
  end.
Proof.
  unfold spread. rewrite lookup_union.
  destruct (extra !! k) as [v|] eqn:Hk; destruct (base !! k); reflexivity.
Qed.

Lemma handler_raises (A : Type) E prefix e w :
  (error_msg <- lift (error_msg E e) ;; raise (A := A) (Exception (prefix +:+ error_msg))) w =
  (Raise (handled E prefix e), w).
Proof.
  unfold bind, lift, raise, handled. destruct (error_msg E e); reflexivity.
Qed.

(** An error response is falsy: its body is not looked at. *)
Lemma error_msg_of_error_status E r :
  resp_ok r = false -> error_msg E (RequestExc (resp_error r) (Some r)) = Return (resp_error r).
Proof. intros Hbad. unfold error_msg. cbn. rewrite Hbad. reflexivity. Qed.

Lemma handled_of_error_status E prefix r :
  resp_ok r = false ->
  handled E prefix (RequestExc (resp_error r) (Some r)) = Exception (prefix +:+ resp_error r).
Proof. intros Hbad. unfold handled. rewrite error_msg_of_error_status by exact Hbad. reflexivity. Qed.

Lemma handled_without_response E prefix e :
  exc_response e = None -> handled E prefix e = Exception (prefix +:+ exc_str e).
Proof. intros Hnone. unfold handled, error_msg. rewrite Hnone. reflexivity. Qed.

(** What a handler raises is its own error or the [AttributeError] of the
    message expression. *)
Lemma handled_cases E prefix e :
  (exists text, handled E prefix e = Exception text)
  \/ (exists text, handled E prefix e = AttributeError text).
Proof.
  unfold handled, error_msg.
  destruct (exc_response e) as [r|]; [|left; eexists; reflexivity].
  destruct (resp_ok r); [|left; eexists; reflexivity].
  destruct (resp_body r); try (right; eexists; reflexivity).
  destruct (assoc "message" fields); left; eexists; reflexivity.
Qed.

Lemma exchange_run E r prefix w :
  exchange E r prefix w =
  (exchange_outcome E prefix (serve E (requests_of (events w)) r),
   World (now w + rtt E (requests_of (events w)) r) (Http (now w) r :: events w)).
Proof.
  unfold exchange, exchange_outcome, try_request, bind, http, raise_for_status, ret, raise, lift.
  cbn.
  destruct (serve E _ _) as [resp|e]; cbn;
    [|unfold handled; destruct (error_msg E e); reflexivity].
  destruct (resp_ok resp) eqn:Hok; cbn -[error_msg]; [reflexivity|].
  rewrite (error_msg_of_error_status E resp Hok). reflexivity.
Qed.

Lemma requests_of_http t r evs :
  requests_of (Http t r :: evs) = r :: requests_of evs.
Proof. reflexivity. Qed.

Lemma requests_of_slept t ms evs :
  requests_of (Slept t ms :: evs) = requests_of evs.
Proof. reflexivity. Qed.

Lemma requests_of_printed line evs :
  requests_of (Printed line :: evs) = requests_of evs.
Proof. reflexivity. Qed.

(** ** The request builder *)

Section RequestBuilder.

Variable E : env.

Lemma process_audio_is_exchange files config w :
  AudioProcessor.process_audio E files config w =
  exchange E (PostEdits (Payload (AudioProcessor.file_array files) (or_empty config)))
    "Failed to process audio: " w.
Proof. reflexivity. Qed.

(** [process_audio] always issues exactly one request, the job creation. *)
Lemma process_audio_world files config w :
  snd (AudioProcessor.process_audio E files config w) =
  World (now w + rtt E (requests_of (events w))
                   (PostEdits (Payload (AudioProcessor.file_array files) (or_empty config))))
        (Http (now w) (PostEdits (Payload (AudioProcessor.file_array files) (or_empty config)))
           :: events w).
Proof. rewrite process_audio_is_exchange, exchange_run. reflexivity. Qed.

(** The outcome of [process_audio] is decided by the service alone. *)
Lemma process_audio_outcome files config w :
  fst (AudioProcessor.process_audio E files config w) =
  exchange_outcome E "Failed to process audio: "
    (serve E (requests_of (events w))
       (PostEdits (Payload (AudioProcessor.file_array files) (or_empty config)))).
Proof. rewrite process_audio_is_exchange, exchange_run. reflexivity. Qed.

End RequestBuilder.

Lemma dict_literal_snoc (l : list (string * json)) (kv : string * json) :
  dict_literal (l ++ [kv]) = <[kv.1 := kv.2]> (dict_literal l).
Proof. unfold dict_literal. rewrite foldl_app. reflexivity. Qed.

(** A display without repeated keys is the map of its entries. *)
Lemma dict_literal_list_to_map (l : list (string * json)) :
  NoDup l.*1 -> dict_literal l = list_to_map l.
Proof.
  induction l as [|kv l IH] using rev_ind; intros Hnd; [reflexivity|].
  rewrite dict_literal_snoc.
  rewrite fmap_app in Hnd.
  rewrite IH by (apply NoDup_app in Hnd; tauto).
  transitivity (list_to_map (M := gmap string json) (kv :: l)).
  - destruct kv; reflexivity.
  - apply list_to_map_proper.
    + cbn. apply NoDup_app in Hnd as (Hl & Hdisj & _).
      constructor; [|exact Hl].
      intros Hin. apply (Hdisj _ Hin). cbn. left.
    + apply Permutation_cons_append.
Qed.

Ltac distinct_keys := apply (bool_decide_unpack _); vm_compute; reflexivity.

Section RequestBuilderClaims.

Variable E : env.

Lemma invoke_events op files additional w :
  passes_validation op files = true ->
  events (snd (invoke E op files additional w)) =
  posted w files (spread (documented_defaults op) (or_empty additional)).
Proof.
  intros Hval. unfold posted.
  destruct op; cbn in Hval |- *;
    unfold AudioProcessor.remove_silences, AudioProcessor.remove_stutters,
      AudioProcessor.remove_fillers, AudioProcessor.remove_mouth_sounds,
      AudioProcessor.remove_hesitations, AudioProcessor.mute_segments,
      AudioProcessor.denoise_audio, AudioProcessor.preserve_music,
      AudioProcessor.reduce_breath_sounds, AudioProcessor.normalize_audio,
      AudioProcessor.apply_autoeq, AudioProcessor.enhance_with_ai,
      AudioProcessor.set_mute_lufs, AudioProcessor.set_target_lufs,
      AudioProcessor.export_audio, AudioProcessor.transcribe_audio,
      AudioProcessor.summarize_audio, AudioProcessor.create_social_content,
      AudioProcessor.merge_tracks, AudioProcessor.enhance_audio_comprehensive,
      AudioProcessor.comprehensive_defaults;
    try (apply negb_true_iff in Hval; rewrite Hval);
    try (rewrite Hval; cbn [negb]);
    rewrite process_audio_world; cbn [events or_empty];
    rewrite dict_literal_list_to_map by distinct_keys;
    reflexivity.
Qed.

Lemma process_audio_never_value_error files config w msg :
  fst (AudioProcessor.process_audio E files config w) <> Raise (ValueError msg).
Proof.
  rewrite process_audio_outcome. unfold exchange_outcome.
  destruct (serve E _ _) as [r|e]; [destruct (resp_ok r); discriminate|].
  destruct (handled_cases E "Failed to process audio: " e) as [[text ->]|[text ->]];
    discriminate.
Qed.

(** C9. Whatever [process_audio] is given, it issues one job-creation
    request whose body has the shape [{input: {files: <list>, config:
    <mapping>}}]: a single string is wrapped into a one-element list, a list
    is passed unchanged, an omitted configuration is the empty mapping. *)
Theorem process_audio_payload_shape files config w :
  events (snd (AudioProcessor.process_audio E files config w)) =
  Http (now w)
    (PostEdits
       (Payload
          match files with OneFile url => [url] | FileList urls => urls end
          match config with None => ∅ | Some c => c end))
    :: events w.
Proof.
  rewrite process_audio_world. cbn [events].
  destruct files, config; reflexivity.
Qed.

(** [set_target_lufs] rejects every threshold that is not negative, and
    creates a job for every negative one. *)
Lemma set_target_lufs_rejects files v additional w :
  0 <= v ->
  AudioProcessor.set_target_lufs E files v additional w =
  (Raise (ValueError "target_lufs must be less than 0"), w).
Proof.
  intros Hv. unfold AudioProcessor.set_target_lufs.
  destruct (Z.leb_spec 0 v); [reflexivity|lia].
Qed.

Lemma set_target_lufs_accepts files v additional w :
  v < 0 ->
  events (snd (AudioProcessor.set_target_lufs E files v additional w)) =
  posted w files (spread {[ "target_lufs" := JInt v ]} (or_empty additional)).
Proof.
  intros Hv. apply (invoke_events (SetTargetLufs v)). cbn.
  destruct (Z.leb_spec 0 v); [lia|reflexivity].
Qed.

(** [set_mute_lufs] rejects the positive thresholds only. *)
Lemma set_mute_lufs_rejects files v additional w :
  0 < v ->
  AudioProcessor.set_mute_lufs E files v additional w =
  (Raise (ValueError "mute_lufs must be a negative integer"), w).
Proof.
  intros Hv. unfold AudioProcessor.set_mute_lufs.
  destruct (Z.ltb_spec 0 v); [reflexivity|lia].
Qed.

Lemma set_mute_lufs_accepts files v additional w :
  v <= 0 ->
  events (snd (AudioProcessor.set_mute_lufs E files v additional w)) =
  posted w files (spread {[ "mute_lufs" := JInt v ]} (or_empty additional)).
Proof.
  intros Hv. apply (invoke_events (SetMuteLufs v)). cbn.
  destruct (Z.ltb_spec 0 v); [lia|reflexivity].
Qed.

(** C1 (the boundary of [set_mute_lufs]). Given the threshold 0,
    [set_mute_lufs] raises no [ValueError]: it builds the configuration
    [{'mute_lufs': 0, ...}] and sends it to job creation, whereas
    [set_target_lufs] rejects 0 and sends nothing. *)
Theorem set_mute_lufs_zero_is_accepted files additional w :
  (forall msg, fst (AudioProcessor.set_mute_lufs E files 0 additional w) <> Raise (ValueError msg))
  /\ events (snd (AudioProcessor.set_mute_lufs E files 0 additional w)) =
     posted w files (spread {[ "mute_lufs" := JInt 0 ]} (or_empty additional))
  /\ AudioProcessor.set_target_lufs E files 0 additional w =
     (Raise (ValueError "target_lufs must be less than 0"), w).
Proof.
  split; [|split].
  - intros msg. unfold AudioProcessor.set_mute_lufs. cbn [Z.ltb Z.compare].
    apply process_audio_never_value_error.
  - apply set_mute_lufs_accepts. lia.
  - apply set_target_lufs_rejects. lia.
Qed.

(** C2. For every operation that passes its local validation and every
    additional configuration, the configuration sent to job creation holds,
    under each key, the caller's value when the caller supplied one and the
    operation's documented default otherwise; in particular
    [remove_silences(url, {'long_silences': False})] sends
    [long_silences == False]. *)
Theorem caller_overrides_win :
  (forall op files additional w,
     passes_validation op files = true ->
     exists cfg,
       events (snd (invoke E op files additional w)) = posted w files cfg
       /\ forall k,
            cfg !! k =
            match or_empty additional !! k with
            | Some v => Some v
            | None => documented_defaults op !! k
            end)
  /\ (forall url w,
        exists cfg,
          events (snd (AudioProcessor.remove_silences E (OneFile url)
                         (Some {[ "long_silences" := JBool false ]}) w)) =
          posted w (OneFile url) cfg
          /\ cfg !! "long_silences" = Some (JBool false)).
Proof.
  split.
  - intros op files additional w Hval.
    eexists. split; [apply invoke_events; exact Hval|].
    intros k. apply spread_lookup.
  - intros url w. eexists. split.
    + apply (invoke_events RemoveSilences). reflexivity.
    + rewrite spread_lookup. reflexivity.
Qed.

(** C7. [merge_tracks] raises [ValueError] without touching the network
    when it is given a single reference or a list of fewer than two, and for
    every list of two or more it sends that list to job creation with the
    key [merge] set ([True] unless the caller supplied the key). *)
Theorem merge_tracks_needs_two normalize additional w :
  (forall url,
     AudioProcessor.merge_tracks E (OneFile url) normalize additional w =
     (Raise (ValueError "merge_tracks requires a list of at least 2 file URLs"), w))
  /\ (forall urls,
        (length urls < 2)%nat ->
        AudioProcessor.merge_tracks E (FileList urls) normalize additional w =
        (Raise (ValueError "merge_tracks requires a list of at least 2 file URLs"), w))
  /\ (forall urls,
        (2 <= length urls)%nat ->
        exists cfg,
          events (snd (AudioProcessor.merge_tracks E (FileList urls) normalize additional w)) =
          Http (now w) (PostEdits (Payload urls cfg)) :: events w
          /\ cfg !! "merge" =
             match or_empty additional !! "merge" with
             | Some v => Some v
             | None => Some (JBool true)
             end
          /\ forall msg,
               fst (AudioProcessor.merge_tracks E (FileList urls) normalize additional w)
               <> Raise (ValueError msg)).
Proof.
  split; [|split].
  - reflexivity.
  - intros urls Hlen. unfold AudioProcessor.merge_tracks, AudioProcessor.too_few_tracks.
    destruct (Z.ltb_spec (Z.of_nat (length urls)) 2); [reflexivity|lia].
  - intros urls Hlen.
    assert (Hok : AudioProcessor.too_few_tracks (FileList urls) = false).
    { unfold AudioProcessor.too_few_tracks.
      destruct (Z.ltb_spec (Z.of_nat (length urls)) 2); [lia|reflexivity]. }
    eexists. split; [|split].
    + apply (invoke_events (MergeTracks normalize)).
      unfold passes_validation. rewrite Hok. reflexivity.
    + rewrite spread_lookup. destruct (or_empty additional !! "merge"); reflexivity.
    + intros msg. unfold AudioProcessor.merge_tracks. rewrite Hok.
      apply process_audio_never_value_error.
Qed.

End RequestBuilderClaims.

Lemma caller_overrides_win_witness :
  (exists cfg,
     events (snd (invoke (scripted [] JNull (ok (job "e1" "PENDING")))
                    (MergeTracks true) (FileList ["a.mp3"; "b.mp3"])
                    (Some {[ "normalize" := JBool false ]}) world0)) =
     posted world0 (FileList ["a.mp3"; "b.mp3"]) cfg
     /\ forall k,
          cfg !! k =
          match or_empty (Some {[ "normalize" := JBool false ]}) !! k with
          | Some v => Some v
          | None => documented_defaults (MergeTracks true) !! k
          end)
  /\ exists cfg,
       events (snd (AudioProcessor.remove_silences (scripted [] JNull (ok (job "e1" "PENDING")))
                      (OneFile "https://bucket/a.mp3")
                      (Some {[ "long_silences" := JBool false ]}) world0)) =
       posted world0 (OneFile "https://bucket/a.mp3") cfg
       /\ cfg !! "long_silences" = Some (JBool false).
Proof.
  pose proof (caller_overrides_win (scripted [] JNull (ok (job "e1" "PENDING"))))
    as [Hgeneral Hexample].
  split.
  - apply Hgeneral. reflexivity.
  - apply Hexample.
Defined.

Lemma merge_tracks_needs_two_witness :
  AudioProcessor.merge_tracks (scripted [] JNull (ok (job "e1" "PENDING")))
    (FileList ["a.mp3"]) true None world0 =
  (Raise (ValueError "merge_tracks requires a list of at least 2 file URLs"), world0)
  /\ exists cfg,
       events (snd (AudioProcessor.merge_tracks (scripted [] JNull (ok (job "e1" "PENDING")))
                      (FileList ["a.mp3"; "b.mp3"]) true None world0)) =
       Http (now world0) (PostEdits (Payload ["a.mp3"; "b.mp3"] cfg)) :: events world0
       /\ cfg !! "merge" =
          match or_empty None !! "merge" with
          | Some v => Some v
          | None => Some (JBool true)
          end
       /\ forall msg,
            fst (AudioProcessor.merge_tracks (scripted [] JNull (ok (job "e1" "PENDING")))
                   (FileList ["a.mp3"; "b.mp3"]) true None world0)
            <> Raise (ValueError msg).
Proof.
  pose proof (merge_tracks_needs_two (scripted [] JNull (ok (job "e1" "PENDING")))
                true None world0) as (_ & Hfew & Henough).
  split.
  - apply Hfew. cbn. lia.
  - apply Henough. cbn. lia.
Defined.

(** The boundary values on a concrete service. *)
Example set_target_lufs_boundary :
  fst (AudioProcessor.set_target_lufs (scripted [] JNull (ok (job "e1" "PENDING")))
         (OneFile "u") 0 None world0) =
  Raise (ValueError "target_lufs must be less than 0")
  /\ fst (AudioProcessor.set_target_lufs (scripted [] JNull (ok (job "e1" "PENDING")))
            (OneFile "u") (-1) None world0) =
     Return (job "e1" "PENDING")
  /\ fst (AudioProcessor.set_mute_lufs (scripted [] JNull (ok (job "e1" "PENDING")))
            (OneFile "u") (-1) None world0) =
     Return (job "e1" "PENDING")
  /\ fst (AudioProcessor.set_mute_lufs (scripted [] JNull (ok (job "e1" "PENDING")))
            (OneFile "u") 0 None world0) =
     Return (job "e1" "PENDING")
  /\ fst (AudioProcessor.set_mute_lufs (scripted [] JNull (ok (job "e1" "PENDING")))
            (OneFile "u") 1 None world0) =
     Raise (ValueError "mute_lufs must be a negative integer").
Proof. repeat split. Qed.

(** ** The completion poller *)

Section Poller.

Variable E : env.

Lemma get_edit_status_is_exchange edit_id w :
  AudioProcessor.get_edit_status E edit_id w =
  exchange E (GetEdit edit_id) "Failed to get edit status: " w.
Proof. reflexivity. Qed.

Lemma get_edit_status_reports edit_id status body w :
  reports (serve E (requests_of (events w)) (GetEdit edit_id)) status body ->
  AudioProcessor.get_edit_status E edit_id w = (Return body, answered E (GetEdit edit_id) w).
Proof.
  intros (code & err & Hserve & Hok & _).
  rewrite get_edit_status_is_exchange, exchange_run, Hserve.
  unfold exchange_outcome. rewrite Hok. reflexivity.
Qed.

Lemma get_edit_status_world edit_id w :
  snd (AudioProcessor.get_edit_status E edit_id w) = answered E (GetEdit edit_id) w.
Proof. rewrite get_edit_status_is_exchange, exchange_run. reflexivity. Qed.

(** The deadline has passed: no query, [Edit job timed out]. *)
Lemma wait_loop_timeout fuel edit_id poll_interval max_wait_time start_time w :
  max_wait_time <= now w - start_time ->
  AudioProcessor.wait_loop E (S fuel) edit_id poll_interval max_wait_time start_time w =
  Some (Raise (Exception "Edit job timed out"), w).
Proof.
  intros Hlate. cbn [AudioProcessor.wait_loop].
  destruct (Z.ltb_spec (now w - start_time) max_wait_time); [lia|reflexivity].
Qed.

(** One turn of the loop on a [PENDING] reply: query, sleep, go round. *)
Lemma wait_loop_pending fuel edit_id poll_interval max_wait_time start_time body w :
  now w - start_time < max_wait_time ->
  0 <= poll_interval ->
  reports (serve E (requests_of (events w)) (GetEdit edit_id)) "PENDING" body ->
  AudioProcessor.wait_loop E (S fuel) edit_id poll_interval max_wait_time start_time w =
  AudioProcessor.wait_loop E fuel edit_id poll_interval max_wait_time start_time
    (rested E poll_interval (answered E (GetEdit edit_id) w)).
Proof.
  intros Hearly Hint Hrep. cbn [AudioProcessor.wait_loop].
  destruct (Z.ltb_spec (now w - start_time) max_wait_time); [|lia].
  rewrite (get_edit_status_reports _ _ _ _ Hrep).
  destruct Hrep as (code & err & _ & _ & Hst). rewrite Hst. cbn.
  unfold AudioProcessor.sleep_ms.
  destruct (Z.ltb_spec poll_interval 0); [lia|]. reflexivity.
Qed.

(** A [SUCCESS] reply ends the loop with the reply itself. *)
Lemma wait_loop_success fuel edit_id poll_interval max_wait_time start_time body w :
  now w - start_time < max_wait_time ->
  reports (serve E (requests_of (events w)) (GetEdit edit_id)) "SUCCESS" body ->
  AudioProcessor.wait_loop E (S fuel) edit_id poll_interval max_wait_time start_time w =
  Some (Return body, answered E (GetEdit edit_id) w).
Proof.
  intros Hearly Hrep. cbn [AudioProcessor.wait_loop].
  destruct (Z.ltb_spec (now w - start_time) max_wait_time); [|lia].
  rewrite (get_edit_status_reports _ _ _ _ Hrep).
  destruct Hrep as (code & err & _ & _ & Hst). rewrite Hst. reflexivity.
Qed.

(** A [FAILURE] reply ends the loop with [Edit job failed]. *)
Lemma wait_loop_failure fuel edit_id poll_interval max_wait_time start_time body w :
  now w - start_time < max_wait_time ->
  reports (serve E (requests_of (events w)) (GetEdit edit_id)) "FAILURE" body ->
  AudioProcessor.wait_loop E (S fuel) edit_id poll_interval max_wait_time start_time w =
  Some (Raise (Exception "Edit job failed"), answered E (GetEdit edit_id) w).
Proof.
  intros Hearly Hrep. cbn [AudioProcessor.wait_loop].
  destruct (Z.ltb_spec (now w - start_time) max_wait_time); [|lia].
  rewrite (get_edit_status_reports _ _ _ _ Hrep).
  destruct Hrep as (code & err & _ & _ & Hst). rewrite Hst. reflexivity.
Qed.

Lemma count_gets_answered edit_id w :
  count_gets (requests_of (events (answered E (GetEdit edit_id) w))) =
  S (count_gets (requests_of (events w))).
Proof. reflexivity. Qed.

Lemma count_gets_rested ms w :
  count_gets (requests_of (events (rested E ms w))) = count_gets (requests_of (events w)).
Proof. reflexivity. Qed.

Lemma now_answered r w : causal E -> now w <= now (answered E r w).
Proof. intros [Hrtt _]. cbn. specialize (Hrtt (requests_of (events w)) r). lia. Qed.

Lemma now_rested ms w : causal E -> now w + ms <= now (rested E ms w).
Proof. intros [_ Hlag]. cbn. specialize (Hlag (now w)). lia. Qed.

(** Every request the loop adds to the history was issued before the
    deadline [start_time + max_wait_time]. *)
Lemma wait_loop_before_deadline fuel edit_id poll_interval max_wait_time start_time :
  forall w o w',
    AudioProcessor.wait_loop E fuel edit_id poll_interval max_wait_time start_time w = Some (o, w') ->
    exists new,
      events w' = new ++ events w
      /\ Forall (before_deadline (start_time + max_wait_time)) new.
Proof.
  induction fuel as [|fuel IH]; intros w o w' Hrun; [discriminate|].
  cbn [AudioProcessor.wait_loop] in Hrun.
  destruct (Z.ltb_spec (now w - start_time) max_wait_time) as [Hearly|Hlate].
  2:{ injection Hrun as <- <-. exists []. split; [reflexivity|constructor]. }
  pose proof (get_edit_status_world edit_id w) as Hworld.
  destruct (AudioProcessor.get_edit_status E edit_id w) as [[status|e] w1];
    cbn [snd] in Hworld; subst w1.
  2:{ injection Hrun as <- <-. exists [Http (now w) (GetEdit edit_id)].
      split; [reflexivity|]. repeat constructor. cbn. lia. }
  assert (Hone : exists new, events (answered E (GetEdit edit_id) w) = new ++ events w
                 /\ Forall (before_deadline (start_time + max_wait_time)) new).
  { exists [Http (now w) (GetEdit edit_id)]. split; [reflexivity|].
    repeat constructor. cbn. lia. }
  destruct (subscript status "status") as [st|e]; [|injection Hrun as <- <-; exact Hone].
  destruct (AudioProcessor.is_str st "SUCCESS"); [injection Hrun as <- <-; exact Hone|].
  destruct (AudioProcessor.is_str st "FAILURE"); [injection Hrun as <- <-; exact Hone|].
  unfold AudioProcessor.sleep_ms in Hrun.
  destruct (poll_interval <? 0); [injection Hrun as <- <-; exact Hone|].
  apply IH in Hrun as (new & Hev & Hall).
  exists (new ++ [Slept (now (answered E (GetEdit edit_id) w)) poll_interval;
                  Http (now w) (GetEdit edit_id)]).
  split.
  - rewrite Hev. cbn. rewrite <- app_assoc. reflexivity.
  - apply Forall_app. split; [exact Hall|].
    repeat constructor. cbn. lia.
Qed.

(** A job that stays [PENDING] is given up after at most [n] queries when
    [n] intervals cover what is left of the waiting time. *)
Lemma pending_times_out edit_id poll_interval max_wait_time start_time :
  causal E -> always_pending E -> 0 < poll_interval ->
  forall (n fuel : nat) w,
    max_wait_time - (now w - start_time) <= poll_interval * Z.of_nat n ->
    (n < fuel)%nat ->
    exists w',
      AudioProcessor.wait_loop E fuel edit_id poll_interval max_wait_time start_time w =
      Some (Raise (Exception "Edit job timed out"), w')
      /\ (count_gets (requests_of (events w')) <= count_gets (requests_of (events w)) + n)%nat.
Proof.
  intros Hcausal Hpending Hint.
  induction n as [|n IH]; intros fuel w Hleft Hfuel;
    (destruct fuel as [|fuel]; [lia|]).
  - exists w. split; [apply wait_loop_timeout; lia|lia].
  - destruct (Z.le_gt_cases max_wait_time (now w - start_time)) as [Hlate|Hearly].
    + exists w. split; [apply wait_loop_timeout; exact Hlate|lia].
    + destruct (Hpending (requests_of (events w)) edit_id) as [body Hrep].
      rewrite (wait_loop_pending _ _ _ _ _ body) by (try exact Hrep; lia).
      destruct (IH fuel (rested E poll_interval (answered E (GetEdit edit_id) w)))
        as (w' & Hrun & Hcount).
      * pose proof (now_answered (GetEdit edit_id) w Hcausal).
        pose proof (now_rested poll_interval (answered E (GetEdit edit_id) w) Hcausal).
        lia.
      * lia.
      * exists w'. split; [exact Hrun|].
        rewrite count_gets_rested, count_gets_answered in Hcount. lia.
Qed.

(** C3. The poller issues no status query at or after the deadline: every
    request it makes is stamped before [start + max_wait]; once the elapsed
    time has reached [max_wait] it raises [Edit job timed out] without
    another query; and with a deadline of 10 seconds, an interval of 5
    seconds and a job that never leaves [PENDING] it times out after at most
    two queries. *)
Theorem poller_stops_at_deadline :
  (forall fuel edit_id poll_interval max_wait_time w o w',
     AudioProcessor.wait_for_completion E fuel edit_id poll_interval max_wait_time w = Some (o, w') ->
     exists new,
       events w' = new ++ events w
       /\ Forall (before_deadline (now w + max_wait_time)) new)
  /\ (forall fuel edit_id poll_interval max_wait_time start_time w,
        max_wait_time <= now w - start_time ->
        AudioProcessor.wait_loop E (S fuel) edit_id poll_interval max_wait_time start_time w =
        Some (Raise (Exception "Edit job timed out"), w))
  /\ (causal E -> always_pending E ->
      forall fuel edit_id w,
        (3 <= fuel)%nat ->
        exists w',
          AudioProcessor.wait_for_completion E fuel edit_id 5000 10000 w =
          Some (Raise (Exception "Edit job timed out"), w')
          /\ (count_gets (requests_of (events w')) <= count_gets (requests_of (events w)) + 2)%nat).
Proof.
  split; [|split].
  - intros fuel edit_id poll_interval max_wait_time w o w' Hrun.
    exact (wait_loop_before_deadline _ _ _ _ _ _ _ _ Hrun).
  - intros. apply wait_loop_timeout. assumption.
  - intros Hcausal Hpending fuel edit_id w Hfuel.
    unfold AudioProcessor.wait_for_completion.
    apply pending_times_out; try assumption; lia.
Qed.

(** C4. When the first two status replies say [PENDING] and the third says
    [SUCCESS], all within the default deadline of 300 seconds at a 5-second
    interval, [wait_for_completion] returns the third reply as it is, right
    after the third query: the history ends with that query and holds three
    queries more than before. *)
Theorem poller_returns_success_payload edit_id w b1 b2 payload fuel :
  let w1 := rested E 5000 (answered E (GetEdit edit_id) w) in
  let w2 := rested E 5000 (answered E (GetEdit edit_id) w1) in
  causal E ->
  reports (serve E (requests_of (events w)) (GetEdit edit_id)) "PENDING" b1 ->
  reports (serve E (requests_of (events w1)) (GetEdit edit_id)) "PENDING" b2 ->
  reports (serve E (requests_of (events w2)) (GetEdit edit_id)) "SUCCESS" payload ->
  now w2 - now w < 300000 ->
  (3 <= fuel)%nat ->
  AudioProcessor.wait_for_completion E fuel edit_id 5000 300000 w =
  Some (Return payload, answered E (GetEdit edit_id) w2)
  /\ events (answered E (GetEdit edit_id) w2) =
     [ Http (now w2) (GetEdit edit_id);
       Slept (now (answered E (GetEdit edit_id) w1)) 5000; Http (now w1) (GetEdit edit_id);
       Slept (now (answered E (GetEdit edit_id) w)) 5000; Http (now w) (GetEdit edit_id) ]
     ++ events w.
Proof.
  intros w1 w2 Hcausal H1 H2 H3 Hin Hfuel.
  split; [|reflexivity].
  destruct fuel as [|[|[|fuel]]]; try lia.
  pose proof (now_answered (GetEdit edit_id) w Hcausal).
  pose proof (now_rested 5000 (answered E (GetEdit edit_id) w) Hcausal).
  pose proof (now_answered (GetEdit edit_id) w1 Hcausal).
  pose proof (now_rested 5000 (answered E (GetEdit edit_id) w1) Hcausal).
  fold w1 in H0. fold w1 in H5. fold w2 in H5.
  unfold AudioProcessor.wait_for_completion.
  rewrite (wait_loop_pending _ _ _ _ _ b1) by (try exact H1; lia).
  fold w1.
  rewrite (wait_loop_pending _ _ _ _ _ b2) by (try exact H2; lia).
  fold w2.
  apply wait_loop_success; [lia|exact H3].
Qed.

(** C5. When the first status reply says [PENDING] and the second says
    [FAILURE], the second query being made within the deadline,
    [wait_for_completion] raises [Edit job failed] right after the second
    query: nothing is returned and the history ends with that query. *)
Theorem poller_raises_job_failed edit_id poll_interval max_wait_time w b1 b2 fuel :
  let w1 := rested E poll_interval (answered E (GetEdit edit_id) w) in
  0 <= poll_interval ->
  reports (serve E (requests_of (events w)) (GetEdit edit_id)) "PENDING" b1 ->
  reports (serve E (requests_of (events w1)) (GetEdit edit_id)) "FAILURE" b2 ->
  now w1 - now w < max_wait_time ->
  0 < max_wait_time ->
  (2 <= fuel)%nat ->
  AudioProcessor.wait_for_completion E fuel edit_id poll_interval max_wait_time w =
  Some (Raise (Exception "Edit job failed"), answered E (GetEdit edit_id) w1)
  /\ events (answered E (GetEdit edit_id) w1) =
     [ Http (now w1) (GetEdit edit_id);
       Slept (now (answered E (GetEdit edit_id) w)) poll_interval;
       Http (now w) (GetEdit edit_id) ]
     ++ events w.
Proof.
  intros w1 Hint H1 H2 Hin Hmax Hfuel.
  split; [|reflexivity].
  destruct fuel as [|[|fuel]]; try lia.
  unfold AudioProcessor.wait_for_completion.
  rewrite (wait_loop_pending _ _ _ _ _ b1) by (try exact H1; lia).
  fold w1.
  apply (wait_loop_failure _ _ _ _ _ b2); [lia|exact H2].
Qed.

End Poller.

(** The three scenarios on a scripted service. *)

Example pending_scenario_trace :
  AudioProcessor.wait_for_completion (scripted [] (job "e1" "PENDING") (ok JNull))
    3 "e1" 5000 10000 world0 =
  Some (Raise (Exception "Edit job timed out"),
        World 10000 [Slept 5000 5000; Http 5000 (GetEdit "e1"); Slept 0 5000; Http 0 (GetEdit "e1")]).
Proof. reflexivity. Qed.

Lemma scripted_causal script after other : causal (scripted script after other).
Proof. split; intros; cbn; lia. Qed.

Lemma job_reports id status : reports (ok (job id status)) status (job id status).
Proof. exists 200, "". repeat split. Qed.

Lemma poller_stops_at_deadline_witness :
  (exists new,
     events (World 10000
               [Slept 5000 5000; Http 5000 (GetEdit "e1"); Slept 0 5000; Http 0 (GetEdit "e1")]) =
     new ++ events world0
     /\ Forall (before_deadline (now world0 + 10000)) new)
  /\ AudioProcessor.wait_loop (scripted [] (job "e1" "PENDING") (ok JNull)) 1 "e1" 5000 10000 0
       (World 10000 []) =
     Some (Raise (Exception "Edit job timed out"), World 10000 [])
  /\ exists w',
       AudioProcessor.wait_for_completion (scripted [] (job "e1" "PENDING") (ok JNull))
         3 "e1" 5000 10000 world0 =
       Some (Raise (Exception "Edit job timed out"), w')
       /\ (count_gets (requests_of (events w')) <= count_gets (requests_of (events world0)) + 2)%nat.
Proof.
  pose proof (poller_stops_at_deadline (scripted [] (job "e1" "PENDING") (ok JNull)))
    as (Hstamp & Hlate & Hscenario).
  split; [|split].
  - apply (Hstamp 3%nat "e1" 5000 10000 world0 (Raise (Exception "Edit job timed out"))).
    reflexivity.
  - apply Hlate. cbn. lia.
  - apply Hscenario.
    + apply scripted_causal.
    + intros seen edit_id. exists (job "e1" "PENDING"). cbn [scripted serve].
      destruct (count_gets seen); apply job_reports.
    + lia.
Defined.

Lemma poller_returns_success_payload_witness :
  AudioProcessor.wait_for_completion
    (scripted [job "e1" "PENDING"; job "e1" "PENDING"; job_done "e1" "https://cdn/out.mp3"]
       (job "e1" "PENDING") (ok JNull))
    3 "e1" 5000 300000 world0 =
  Some (Return (job_done "e1" "https://cdn/out.mp3"),
        World 10000 [ Http 10000 (GetEdit "e1"); Slept 5000 5000; Http 5000 (GetEdit "e1");
                      Slept 0 5000; Http 0 (GetEdit "e1") ]).
Proof.
  apply (poller_returns_success_payload
           (scripted [job "e1" "PENDING"; job "e1" "PENDING"; job_done "e1" "https://cdn/out.mp3"]
              (job "e1" "PENDING") (ok JNull))
           "e1" world0 (job "e1" "PENDING") (job "e1" "PENDING")
           (job_done "e1" "https://cdn/out.mp3") 3%nat).
  - apply scripted_causal.
  - apply job_reports.
  - apply job_reports.
  - exists 200, "". repeat split.
  - cbn. lia.
  - lia.
Defined.

Lemma poller_raises_job_failed_witness :
  AudioProcessor.wait_for_completion
    (scripted [job "e1" "PENDING"; job "e1" "FAILURE"] (job "e1" "PENDING") (ok JNull))
    2 "e1" 5000 300000 world0 =
  Some (Raise (Exception "Edit job failed"),
        World 5000 [ Http 5000 (GetEdit "e1"); Slept 0 5000; Http 0 (GetEdit "e1") ]).
Proof.
  apply (poller_raises_job_failed
           (scripted [job "e1" "PENDING"; job "e1" "FAILURE"] (job "e1" "PENDING") (ok JNull))
           "e1" 5000 300000 world0 (job "e1" "PENDING") (job "e1" "FAILURE") 2%nat).
  - lia.
  - apply job_reports.
  - apply job_reports.
  - cbn. lia.
  - lia.
  - lia.
Defined.

(** ** The upload handshake *)

Section Upload.

Variable E : env.

(** A failure of the first request is reported as [upload_failure]. *)
Lemma upload_file_first_step_fails file_path filename w :
  reply_fails (serve E (requests_of (events w)) (PostUpload filename)) = true ->
  fst (AudioProcessor.upload_file E file_path filename w) =
  Raise (upload_failure E (serve E (requests_of (events w)) (PostUpload filename))).
Proof.
  intros Hfail.
  unfold AudioProcessor.upload_file, try_request, bind, http, raise_for_status, lift, raise,
    upload_failure.
  destruct (serve E _ _) as [r|e]; cbn -[error_msg] in Hfail |- *.
  - apply negb_true_iff in Hfail. rewrite Hfail. cbn -[error_msg].
    rewrite (error_msg_of_error_status E r Hfail). reflexivity.
  - destruct (error_msg E e); reflexivity.
Qed.

(** The outcome of [upload_file] once the first request has produced a
    signed URL and the file has been read. *)
Lemma upload_file_second_step file_path filename w r1 url data :
  serve E (requests_of (events w)) (PostUpload filename) = Responded r1 ->
  resp_ok r1 = true ->
  subscript (resp_body r1) "signedUrl" = Return (JStr url) ->
  read_file E file_path = Some data ->
  AudioProcessor.upload_file E file_path filename w =
  let w1 := answered E (PostUpload filename) w in
  let reply := serve E (requests_of (events w1)) (PutBytes url data) in
  (if reply_fails reply then Raise (upload_failure E reply) else Return url,
   answered E (PutBytes url data) w1).
Proof.
  intros Hfirst Hok Hurl Hread.
  unfold AudioProcessor.upload_file, try_request, bind, http, raise_for_status, lift, raise,
    AudioProcessor.open_read, upload_failure.
  rewrite Hfirst. cbn -[error_msg]. rewrite Hok. cbn -[error_msg].
  rewrite Hurl. cbn -[error_msg]. rewrite Hread. cbn -[error_msg].
  destruct (serve E _ (PutBytes url data)) as [r2|e]; cbn -[error_msg];
    [|destruct (error_msg E e); reflexivity].
  destruct (resp_ok r2) eqn:Hok2; cbn -[error_msg]; [reflexivity|].
  rewrite (error_msg_of_error_status E r2 Hok2). reflexivity.
Qed.

(** C6, as the code has it. When the signed-URL request succeeds and the
    file is read, [upload_file] returns exactly the signed URL it received
    if the transfer of the bytes succeeds; if the transfer fails it raises,
    and returns nothing.  The error names no step: for a transfer answered
    with an error status it is [Exception('Failed to upload file: ...')]
    around the text of the HTTP error, for a transfer that failed without a
    response it is the same around [str(e)]. *)
Theorem upload_file_handshake file_path filename w r1 url data :
  serve E (requests_of (events w)) (PostUpload filename) = Responded r1 ->
  resp_ok r1 = true ->
  subscript (resp_body r1) "signedUrl" = Return (JStr url) ->
  read_file E file_path = Some data ->
  let transfer := serve E (PostUpload filename :: requests_of (events w)) (PutBytes url data) in
  (reply_fails transfer = false ->
   fst (AudioProcessor.upload_file E file_path filename w) = Return url)
  /\ (reply_fails transfer = true ->
      exists raised,
        fst (AudioProcessor.upload_file E file_path filename w) = Raise raised
        /\ (forall r2, transfer = Responded r2 ->
                       raised = Exception ("Failed to upload file: " +:+ resp_error r2))
        /\ (forall e, transfer = Failed e -> exc_response e = None ->
                      raised = Exception ("Failed to upload file: " +:+ exc_str e)))
  /\ requests_of (events (snd (AudioProcessor.upload_file E file_path filename w))) =
     PutBytes url data :: PostUpload filename :: requests_of (events w).
Proof.
  intros Hfirst Hok Hurl Hread transfer.
  rewrite (upload_file_second_step _ _ _ _ _ _ Hfirst Hok Hurl Hread).
  cbv zeta.
  change (serve E (requests_of (events (answered E (PostUpload filename) w))) (PutBytes url data))
    with transfer.
  cbn [fst snd].
  split; [|split].
  - intros Hgood. rewrite Hgood. reflexivity.
  - intros Hbad. rewrite Hbad. eexists. split; [reflexivity|]. split.
    + intros r2 ->. reflexivity.
    + intros e -> Hnone. cbn [upload_failure]. unfold error_msg. rewrite Hnone. reflexivity.
  - reflexivity.
Qed.

End Upload.

Lemma upload_file_handshake_witness :
  fst (AudioProcessor.upload_file (upload_env (signed "https://bucket/a.mp3?sig=1") (ok JNull) "a.mp3" "RIFF")
         "a.mp3" "a.mp3" world0) =
  Return "https://bucket/a.mp3?sig=1"
  /\ exists raised,
       fst (AudioProcessor.upload_file
              (upload_env (signed "https://bucket/a.mp3?sig=1") (Failed refused) "a.mp3" "RIFF")
              "a.mp3" "a.mp3" world0) = Raise raised
       /\ (forall r2, Failed refused = Responded r2 ->
                      raised = Exception ("Failed to upload file: " +:+ resp_error r2))
       /\ (forall e, Failed refused = Failed e -> exc_response e = None ->
                     raised = Exception ("Failed to upload file: " +:+ exc_str e)).
Proof.
  split.
  - apply (upload_file_handshake
             (upload_env (signed "https://bucket/a.mp3?sig=1") (ok JNull) "a.mp3" "RIFF")
             "a.mp3" "a.mp3" world0
             (Response 200 (JObj [("signedUrl", JStr "https://bucket/a.mp3?sig=1")]) "")
             "https://bucket/a.mp3?sig=1" "RIFF"); reflexivity.
  - apply (upload_file_handshake
             (upload_env (signed "https://bucket/a.mp3?sig=1") (Failed refused) "a.mp3" "RIFF")
             "a.mp3" "a.mp3" world0
             (Response 200 (JObj [("signedUrl", JStr "https://bucket/a.mp3?sig=1")]) "")
             "https://bucket/a.mp3?sig=1" "RIFF"); reflexivity.
Defined.

(** C6, as stated, fails on the step context: a refusal of the signed-URL
    request and a refusal of the transfer raise the very same exception, so
    nothing in it tells the steps apart. *)
Lemma upload_error_carries_no_step_context :
  ~ exists step_of, carries_step_context step_of.
Proof.
  intros [step_of Hctx].
  pose proof (Hctx (upload_env (Failed refused) (ok JNull) "a.mp3" "RIFF")
                "a.mp3" "a.mp3" world0
                (Exception "Failed to upload file: Connection aborted.") RequestSignedUrl
                eq_refl eq_refl) as H1.
  pose proof (Hctx (upload_env (signed "https://bucket/a.mp3?sig=1") (Failed refused) "a.mp3" "RIFF")
                "a.mp3" "a.mp3" world0
                (Exception "Failed to upload file: Connection aborted.") TransferBytes
                eq_refl eq_refl) as H2.
  congruence.
Qed.

(** ** File discovery and the driver *)

Section Discovery.

Variable E : env.



End Discovery.





(** ** Start-up *)

(** C10, as stated, fails: with the variable set to the empty string the
    key is falsy, the message is printed and the program exits with
    status 1. *)
Lemma main_exits_on_empty_key :
  main {[ api_key_variable := "" ]} (fun _ => ret tt) world0 =
  (Raise (SystemExit 1),
   World 0 [ Printed "   or modify the api_key variable in the script";
             Printed "❌ Please set your Cleanvoice API key in the CLEANVOICE_API_KEY environment variable" ]).
Proof. reflexivity. Qed.

(** C10, as the code has it. The missing-key branch is taken exactly when
    the variable is set to the empty string; when it is unset the
    hard-coded default is the key, when it is set to a non-empty value that
    value is, and in both cases [main] goes on to the session without the
    message and without exiting. *)
Theorem main_missing_key_branch environ run w :
  (environ !! api_key_variable = Some "" ->
   main environ run w =
   (Raise (SystemExit 1),
    World (now w)
      (Printed "   or modify the api_key variable in the script"
       :: Printed "❌ Please set your Cleanvoice API key in the CLEANVOICE_API_KEY environment variable"
       :: events w)))
  /\ (environ !! api_key_variable = None ->
      main environ run w = run "FJB8s8nbmY9UQcfeXFeB6tqJmjwDUkKN" w)
  /\ (forall key, environ !! api_key_variable = Some key -> key <> "" ->
      main environ run w = run key w).
Proof.
  unfold main, getenv, api_key_variable.
  split; [|split].
  - intros ->. reflexivity.
  - intros ->. reflexivity.
  - intros key -> Hkey.
    destruct (String.eqb_spec key ""); [contradiction|reflexivity].
Qed.

Lemma main_missing_key_branch_witness :
  main {[ api_key_variable := "" ]} (fun _ => print "session") world0 =
  (Raise (SystemExit 1),
   World 0 [ Printed "   or modify the api_key variable in the script";
             Printed "❌ Please set your Cleanvoice API key in the CLEANVOICE_API_KEY environment variable" ])
  /\ main ∅ (fun _ => print "session") world0 = (Return tt, World 0 [Printed "session"])
  /\ main {[ api_key_variable := "k-123" ]} (fun _ => print "session") world0 =
     (Return tt, World 0 [Printed "session"]).
Proof.
  split; [|split].
  - apply (proj1 (main_missing_key_branch {[ api_key_variable := "" ]}
                    (fun _ => print "session") world0)).
    reflexivity.
  - apply (proj1 (proj2 (main_missing_key_branch ∅ (fun _ => print "session") world0))).
    reflexivity.
  - apply (proj2 (proj2 (main_missing_key_branch {[ api_key_variable := "k-123" ]}
                           (fun _ => print "session") world0)) "k-123").
    + reflexivity.
    + discriminate.
Defined.

(** * Further properties of the client *)

(** ** Local validation *)

(** X1. [export_audio] accepts exactly the five formats of [valid_formats],
    compared as written: any other string raises [ValueError] with the list
    in its text and leaves the world untouched; an accepted format is posted
    under [export_format] unless the caller supplies that key. *)
Theorem export_audio_format_check E files format additional w :
  (format ∉ AudioProcessor.valid_formats ->
   AudioProcessor.export_audio E files format additional w =
   (Raise (ValueError "Invalid export format. Must be one of: auto, mp3, wav, flac, m4a"), w))
  /\ (format ∈ AudioProcessor.valid_formats ->
      events (snd (AudioProcessor.export_audio E files format additional w)) =
      posted w files (spread {[ "export_format" := JStr format ]} (or_empty additional))
      /\ forall msg,
           fst (AudioProcessor.export_audio E files format additional w)
           <> Raise (ValueError msg)).
Proof.
  split.
  - intros Hbad. unfold AudioProcessor.export_audio.
    rewrite bool_decide_eq_false_2 by exact Hbad. reflexivity.
  - intros Hgood. split.
    + apply (invoke_events E (ExportAudio format)). cbn.
      apply bool_decide_eq_true_2. exact Hgood.
    + intros msg. unfold AudioProcessor.export_audio.
      rewrite bool_decide_eq_true_2 by exact Hgood. cbn [negb].
      apply process_audio_never_value_error.
Qed.

Lemma export_audio_format_check_witness :
  AudioProcessor.export_audio (scripted [] JNull (ok (job "e1" "PENDING")))
    (OneFile "u") "MP3" None world0 =
  (Raise (ValueError "Invalid export format. Must be one of: auto, mp3, wav, flac, m4a"), world0)
  /\ events (snd (AudioProcessor.export_audio (scripted [] JNull (ok (job "e1" "PENDING")))
                    (OneFile "u") "flac" None world0)) =
     posted world0 (OneFile "u") (spread {[ "export_format" := JStr "flac" ]} (or_empty None)).
Proof.
  split.
  - apply (proj1 (export_audio_format_check (scripted [] JNull (ok (job "e1" "PENDING")))
                    (OneFile "u") "MP3" None world0)).
    apply (bool_decide_unpack _). vm_compute. reflexivity.
  - apply (proj2 (export_audio_format_check (scripted [] JNull (ok (job "e1" "PENDING")))
                    (OneFile "u") "flac" None world0)).
    apply (bool_decide_unpack _). vm_compute. reflexivity.
Defined.

(** X2. [set_target_lufs] raises [ValueError] exactly for the thresholds
    that are not negative, and then nothing is sent; every negative
    threshold is posted under [target_lufs] unless the caller supplies that
    key. *)
Theorem set_target_lufs_threshold E files v additional w :
  (fst (AudioProcessor.set_target_lufs E files v additional w) =
   Raise (ValueError "target_lufs must be less than 0") <-> 0 <= v)
  /\ (0 <= v -> snd (AudioProcessor.set_target_lufs E files v additional w) = w)
  /\ (v < 0 ->
      events (snd (AudioProcessor.set_target_lufs E files v additional w)) =
      posted w files (spread {[ "target_lufs" := JInt v ]} (or_empty additional))).
Proof.
  split; [|split].
  - split.
    + intros Hraise. destruct (Z.le_gt_cases 0 v) as [Hv|Hv]; [exact Hv|].
      exfalso. revert Hraise. unfold AudioProcessor.set_target_lufs.
      destruct (Z.leb_spec 0 v); [lia|].
      apply process_audio_never_value_error.
    + intros Hv. rewrite set_target_lufs_rejects by exact Hv. reflexivity.
  - intros Hv. rewrite set_target_lufs_rejects by exact Hv. reflexivity.
  - apply set_target_lufs_accepts.
Qed.

Lemma set_target_lufs_threshold_witness :
  snd (AudioProcessor.set_target_lufs (scripted [] JNull (ok (job "e1" "PENDING")))
         (OneFile "u") 3 None world0) = world0
  /\ events (snd (AudioProcessor.set_target_lufs (scripted [] JNull (ok (job "e1" "PENDING")))
                    (OneFile "u") (-16) None world0)) =
     posted world0 (OneFile "u") (spread {[ "target_lufs" := JInt (-16) ]} (or_empty None)).
Proof.
  pose proof (set_target_lufs_threshold (scripted [] JNull (ok (job "e1" "PENDING")))
                (OneFile "u") 3 None world0) as (_ & Hrej & _).
  pose proof (set_target_lufs_threshold (scripted [] JNull (ok (job "e1" "PENDING")))
                (OneFile "u") (-16) None world0) as (_ & _ & Hacc).
  split; [apply Hrej; lia|apply Hacc; lia].
Defined.

(** X3. For all twenty builder methods, a failed local validation raises
    [ValueError] before anything is sent: the world is the one the method
    was called in.  Four methods validate ([set_mute_lufs] a threshold that
    is positive, [set_target_lufs] one that is not negative, [export_audio]
    a format outside its list, [merge_tracks] fewer than two tracks or no
    list); the sixteen others validate nothing. *)
Theorem value_error_before_any_request E op files additional w :
  passes_validation op files = false ->
  exists msg, invoke E op files additional w = (Raise (ValueError msg), w).
Proof.
  intros Hval.
  destruct op; cbn in Hval; try discriminate;
    cbn [invoke];
    unfold AudioProcessor.set_mute_lufs, AudioProcessor.set_target_lufs,
      AudioProcessor.export_audio, AudioProcessor.merge_tracks;
    try (apply negb_false_iff in Hval); rewrite Hval; cbn [negb];
    eexists; reflexivity.
Qed.

Lemma value_error_before_any_request_witness :
  exists msg,
    invoke (scripted [] JNull (ok (job "e1" "PENDING"))) (MergeTracks true)
      (FileList ["only.mp3"]) None world0 =
    (Raise (ValueError msg), world0).
Proof.
  apply (value_error_before_any_request (scripted [] JNull (ok (job "e1" "PENDING")))
           (MergeTracks true) (FileList ["only.mp3"]) None world0).
  reflexivity.
Defined.

(** ** The API client *)

Section ClientOutcomes.

Variable E : env.

(** What [exchange] yields, reply by reply. *)
Lemma exchange_outcome_cases prefix reply :
  (forall r, reply = Responded r -> resp_ok r = true ->
             exchange_outcome E prefix reply = Return (resp_body r))
  /\ (forall r, reply = Responded r -> resp_ok r = false ->
                exchange_outcome E prefix reply = Raise (Exception (prefix +:+ resp_error r)))
  /\ (forall e, reply = Failed e -> exc_response e = None ->
                exchange_outcome E prefix reply = Raise (Exception (prefix +:+ exc_str e)))
  /\ (forall v, exchange_outcome E prefix reply = Return v ->
                exists r, reply = Responded r /\ resp_ok r = true /\ resp_body r = v).
Proof.
  unfold exchange_outcome. split; [|split; [|split]].
  - intros r -> ->. reflexivity.
  - intros r -> ->. reflexivity.
  - intros e -> Hnone. rewrite handled_without_response by exact Hnone. reflexivity.
  - intros v. destruct reply as [r|e]; [|discriminate].
    destruct (resp_ok r) eqn:Hok; [|discriminate].
    intros [= <-]. exists r. repeat split. exact Hok.
Qed.


(** X5. [delete_edit] makes exactly one request whatever the reply, the
    [DELETE] of the given job: no check that the job exists, no retry.  A
    reply with an error status is raised as
    [Exception('Failed to delete edit: ...')] around the text of the HTTP
    error, a request that fails without a response around [str(e)]; and
    whatever [delete_edit] returns is the decoded body of a reply without
    error status. *)
Theorem delete_edit_single_request edit_id w :
  let reply := serve E (requests_of (events w)) (DeleteEdit edit_id) in
  let result := fst (AudioProcessor.delete_edit E edit_id w) in
  events (snd (AudioProcessor.delete_edit E edit_id w)) =
  Http (now w) (DeleteEdit edit_id) :: events w
  /\ (forall r, reply = Responded r -> resp_ok r = false ->
                result = Raise (Exception ("Failed to delete edit: " +:+ resp_error r)))
  /\ (forall e, reply = Failed e -> exc_response e = None ->
                result = Raise (Exception ("Failed to delete edit: " +:+ exc_str e)))
  /\ (forall v, result = Return v ->
                exists r, reply = Responded r /\ resp_ok r = true /\ resp_body r = v).
Proof.
  intros reply result. subst result.
  change (AudioProcessor.delete_edit E edit_id w)
    with (exchange E (DeleteEdit edit_id) "Failed to delete edit: " w).
  rewrite exchange_run. cbn [fst snd events]. fold reply.
  destruct (exchange_outcome_cases "Failed to delete edit: " reply) as (_ & Hbad & Hnone & Hret).
  split; [reflexivity|]. split; [exact Hbad|]. split; [exact Hnone|exact Hret].
Qed.

(** X6. [get_edit_status] makes exactly one request whatever the reply, the
    [GET] of the given job.  A reply with an error status is raised as
    [Exception('Failed to get edit status: ...')] around the text of the HTTP
    error, a request that fails without a response around [str(e)]; and
    whatever [get_edit_status] returns is the decoded body of a reply
    without error status. *)
Theorem get_edit_status_single_request edit_id w :
  let reply := serve E (requests_of (events w)) (GetEdit edit_id) in
  let result := fst (AudioProcessor.get_edit_status E edit_id w) in
  events (snd (AudioProcessor.get_edit_status E edit_id w)) =
  Http (now w) (GetEdit edit_id) :: events w
  /\ (forall r, reply = Responded r -> resp_ok r = false ->
                result = Raise (Exception ("Failed to get edit status: " +:+ resp_error r)))
  /\ (forall e, reply = Failed e -> exc_response e = None ->
                result = Raise (Exception ("Failed to get edit status: " +:+ exc_str e)))
  /\ (forall v, result = Return v ->
                exists r, reply = Responded r /\ resp_ok r = true /\ resp_body r = v).
Proof.
  intros reply result. subst result.
  rewrite get_edit_status_is_exchange, exchange_run. cbn [fst snd events]. fold reply.
  destruct (exchange_outcome_cases "Failed to get edit status: " reply)
    as (_ & Hbad & Hnone & Hret).
  split; [reflexivity|]. split; [exact Hbad|]. split; [exact Hnone|exact Hret].
Qed.

End ClientOutcomes.


Lemma delete_edit_single_request_witness :
  fst (AudioProcessor.delete_edit
         (scripted [] JNull (Responded (Response 404 JNull "404 Client Error: Not Found")))
         "e1" world0) =
  Raise (Exception "Failed to delete edit: 404 Client Error: Not Found")
  /\ fst (AudioProcessor.delete_edit (dir_env []) "e1" world0) =
     Raise (Exception "Failed to delete edit: Connection refused").
Proof.
  split.
  - apply (proj1 (proj2 (delete_edit_single_request
                           (scripted [] JNull
                              (Responded (Response 404 JNull "404 Client Error: Not Found")))
                           "e1" world0))
             (Response 404 JNull "404 Client Error: Not Found")); reflexivity.
  - apply (proj1 (proj2 (proj2 (delete_edit_single_request (dir_env []) "e1" world0)))
             (RequestExc "Connection refused" None)); reflexivity.
Defined.

Lemma get_edit_status_single_request_witness :
  fst (AudioProcessor.get_edit_status (dir_env []) "e1" world0) =
  Raise (Exception "Failed to get edit status: Connection refused")
  /\ exists r,
       serve (scripted [job "e1" "PENDING"] JNull (ok JNull)) (requests_of (events world0))
         (GetEdit "e1") = Responded r
       /\ resp_ok r = true /\ resp_body r = job "e1" "PENDING".
Proof.
  split.
  - apply (proj1 (proj2 (proj2 (get_edit_status_single_request (dir_env []) "e1" world0)))
             (RequestExc "Connection refused" None)); reflexivity.
  - apply (proj2 (proj2 (proj2 (get_edit_status_single_request
                                  (scripted [job "e1" "PENDING"] JNull (ok JNull))
                                  "e1" world0)))
             (job "e1" "PENDING")).
    reflexivity.
Defined.

(** ** The upload handshake, when it does not complete *)

Section UploadEdges.

Variable E : env.

Lemma upload_file_refused file_path filename w :
  reply_fails (serve E (requests_of (events w)) (PostUpload filename)) = true ->
  AudioProcessor.upload_file E file_path filename w =
  (Raise (upload_failure E (serve E (requests_of (events w)) (PostUpload filename))),
   answered E (PostUpload filename) w).
Proof.
  intros Hfail.
  unfold AudioProcessor.upload_file, try_request, bind, http, raise_for_status, lift, raise,
    upload_failure.
  destruct (serve E _ _) as [r|e]; cbn -[error_msg] in Hfail |- *.
  - apply negb_true_iff in Hfail. rewrite Hfail. cbn -[error_msg].
    rewrite (error_msg_of_error_status E r Hfail). reflexivity.
  - destruct (error_msg E e); reflexivity.
Qed.

(** What [upload_failure] is: the handler's own error, or the
    [AttributeError] of its message expression. *)
Lemma upload_failure_cases reply :
  (exists text, upload_failure E reply = Exception text)
  \/ (exists text, upload_failure E reply = AttributeError text).
Proof.
  destruct reply as [r|e]; [left; eexists; reflexivity|].
  exact (handled_cases E "Failed to upload file: " e).
Qed.

(** X7. When the signed-URL request is answered with an error status or
    cannot be made, [upload_file] stops there: that request is the only one,
    no byte is transferred, and an exception is raised, which is
    [Exception('Failed to upload file: ...')] around the text of the HTTP
    error for an error status, and around [str(e)] for a request that failed
    without a response. *)
Theorem upload_file_stops_after_refusal file_path filename w :
  reply_fails (serve E (requests_of (events w)) (PostUpload filename)) = true ->
  exists raised,
    AudioProcessor.upload_file E file_path filename w =
    (Raise raised,
     World (now w + rtt E (requests_of (events w)) (PostUpload filename))
       (Http (now w) (PostUpload filename) :: events w))
    /\ (forall r, serve E (requests_of (events w)) (PostUpload filename) = Responded r ->
                  raised = Exception ("Failed to upload file: " +:+ resp_error r))
    /\ (forall e, serve E (requests_of (events w)) (PostUpload filename) = Failed e ->
                  exc_response e = None ->
                  raised = Exception ("Failed to upload file: " +:+ exc_str e)).
Proof.
  intros Hfail. rewrite (upload_file_refused _ _ _ Hfail).
  eexists. split; [reflexivity|]. split.
  - intros r ->. reflexivity.
  - intros e -> Hnone. cbn [upload_failure]. unfold error_msg. rewrite Hnone. reflexivity.
Qed.

(** X8. A 2xx reply to the signed-URL request whose body has no
    [signedUrl] entry makes [upload_file] raise [KeyError('signedUrl')]
    itself, not the [Failed to upload file] error, and nothing is
    transferred. *)
Theorem upload_file_missing_signed_url file_path filename w r1 fields :
  serve E (requests_of (events w)) (PostUpload filename) = Responded r1 ->
  resp_ok r1 = true ->
  resp_body r1 = JObj fields ->
  assoc "signedUrl" fields = None ->
  AudioProcessor.upload_file E file_path filename w =
  (Raise (KeyError "signedUrl"), answered E (PostUpload filename) w).
Proof.
  intros Hfirst Hok Hbody Hkey.
  unfold AudioProcessor.upload_file, try_request, bind, http, raise_for_status, lift.
  rewrite Hfirst. cbn. rewrite Hok. cbn. rewrite Hbody. cbn. rewrite Hkey. reflexivity.
Qed.

(** X9. The file is opened only after the signed URL has been obtained: when
    it cannot be read, [upload_file] has already made the signed-URL
    request, transfers nothing, and raises the [OSError] of [open] itself,
    not the [Failed to upload file] error. *)
Theorem upload_file_unreadable_file file_path filename w r1 url :
  serve E (requests_of (events w)) (PostUpload filename) = Responded r1 ->
  resp_ok r1 = true ->
  subscript (resp_body r1) "signedUrl" = Return (JStr url) ->
  read_file E file_path = None ->
  exists text,
    AudioProcessor.upload_file E file_path filename w =
    (Raise (OSError text), answered E (PostUpload filename) w).
Proof.
  intros Hfirst Hok Hurl Hread.
  unfold AudioProcessor.upload_file, try_request, bind, http, raise_for_status, lift,
    AudioProcessor.open_read.
  rewrite Hfirst. cbn. rewrite Hok. cbn. rewrite Hurl. cbn. rewrite Hread. cbn.
  eexists. reflexivity.
Qed.

End UploadEdges.

Lemma upload_file_stops_after_refusal_witness :
  exists raised,
    AudioProcessor.upload_file
      (upload_env (Responded (Response 401 JNull "401 Client Error: Unauthorized")) (ok JNull)
         "a.mp3" "RIFF")
      "a.mp3" "a.mp3" world0 =
    (Raise raised, World 0 [Http 0 (PostUpload "a.mp3")])
    /\ (forall r,
          Responded (Response 401 JNull "401 Client Error: Unauthorized") = Responded r ->
          raised = Exception ("Failed to upload file: " +:+ resp_error r))
    /\ (forall e,
          Responded (Response 401 JNull "401 Client Error: Unauthorized") = Failed e ->
          exc_response e = None ->
          raised = Exception ("Failed to upload file: " +:+ exc_str e)).
Proof.
  apply (upload_file_stops_after_refusal
           (upload_env (Responded (Response 401 JNull "401 Client Error: Unauthorized")) (ok JNull)
              "a.mp3" "RIFF")
           "a.mp3" "a.mp3" world0).
  reflexivity.
Defined.

Lemma upload_file_missing_signed_url_witness :
  AudioProcessor.upload_file
    (upload_env (ok (JObj [("url", JStr "https://bucket/a.mp3")])) (ok JNull) "a.mp3" "RIFF")
    "a.mp3" "a.mp3" world0 =
  (Raise (KeyError "signedUrl"), World 0 [Http 0 (PostUpload "a.mp3")]).
Proof.
  apply (upload_file_missing_signed_url
           (upload_env (ok (JObj [("url", JStr "https://bucket/a.mp3")])) (ok JNull) "a.mp3" "RIFF")
           "a.mp3" "a.mp3" world0
           (Response 200 (JObj [("url", JStr "https://bucket/a.mp3")]) "")
           [("url", JStr "https://bucket/a.mp3")]); reflexivity.
Defined.

Lemma upload_file_unreadable_file_witness :
  exists text,
    AudioProcessor.upload_file
      (upload_env (signed "https://bucket/b.mp3?sig=1") (ok JNull) "a.mp3" "RIFF")
      "b.mp3" "b.mp3" world0 =
    (Raise (OSError text), World 0 [Http 0 (PostUpload "b.mp3")]).
Proof.
  apply (upload_file_unreadable_file
           (upload_env (signed "https://bucket/b.mp3?sig=1") (ok JNull) "a.mp3" "RIFF")
           "b.mp3" "b.mp3" world0
           (Response 200 (JObj [("signedUrl", JStr "https://bucket/b.mp3?sig=1")]) "")
           "https://bucket/b.mp3?sig=1"); reflexivity.
Defined.

(** ** The completion poller, whatever the service answers *)

Section PollerEdges.

Variable E : env.

Lemma is_str_false st s : st <> JStr s -> AudioProcessor.is_str st s = false.
Proof.
  intros Hne. destruct st; try reflexivity. cbn.
  destruct (String.eqb_spec s0 s); [subst; contradiction|reflexivity].
Qed.

(** One turn of the loop never adds more than one status query. *)
Lemma wait_loop_bound edit_id poll_interval max_wait_time start_time :
  causal E -> 0 < poll_interval ->
  forall (n fuel : nat) w,
    max_wait_time - (now w - start_time) <= poll_interval * Z.of_nat n ->
    (n < fuel)%nat ->
    exists o w',
      AudioProcessor.wait_loop E fuel edit_id poll_interval max_wait_time start_time w =
      Some (o, w')
      /\ (count_gets (requests_of (events w')) <= count_gets (requests_of (events w)) + n)%nat.
Proof.
  intros Hcausal Hint.
  induction n as [|n IH]; intros fuel w Hleft Hfuel;
    (destruct fuel as [|fuel]; [lia|]).
  - exists (Raise (Exception "Edit job timed out")), w.
    split; [apply wait_loop_timeout; lia|lia].
  - cbn [AudioProcessor.wait_loop].
    destruct (Z.ltb_spec (now w - start_time) max_wait_time) as [Hearly|Hlate].
    2:{ eexists. eexists. split; [reflexivity|lia]. }
    pose proof (get_edit_status_world E edit_id w) as Hworld.
    destruct (AudioProcessor.get_edit_status E edit_id w) as [[status|e] w1];
      cbn [snd] in Hworld; subst w1.
    2:{ eexists. eexists. split; [reflexivity|]. rewrite count_gets_answered. lia. }
    destruct (subscript status "status") as [st|e].
    2:{ eexists. eexists. split; [reflexivity|]. rewrite count_gets_answered. lia. }
    destruct (AudioProcessor.is_str st "SUCCESS").
    { eexists. eexists. split; [reflexivity|]. rewrite count_gets_answered. lia. }
    destruct (AudioProcessor.is_str st "FAILURE").
    { eexists. eexists. split; [reflexivity|]. rewrite count_gets_answered. lia. }
    unfold AudioProcessor.sleep_ms.
    destruct (Z.ltb_spec poll_interval 0); [lia|].
    destruct (IH fuel (rested E poll_interval (answered E (GetEdit edit_id) w)))
      as (o & w' & Hrun & Hcount).
    + pose proof (now_answered E (GetEdit edit_id) w Hcausal).
      pose proof (now_rested E poll_interval (answered E (GetEdit edit_id) w) Hcausal).
      lia.
    + lia.
    + exists o, w'. split; [exact Hrun|].
      rewrite count_gets_rested, count_gets_answered in Hcount. lia.
Qed.

(** X10. With a positive interval, and a service and a clock that take no
    negative time, [wait_for_completion] always finishes, whatever the
    replies: if [n] intervals cover [max_wait_time], it ends within [n + 1]
    turns of its loop and has made at most [n] status queries. *)
Theorem wait_for_completion_terminates edit_id poll_interval max_wait_time (n fuel : nat) w :
  causal E -> 0 < poll_interval ->
  max_wait_time <= poll_interval * Z.of_nat n ->
  (n < fuel)%nat ->
  exists o w',
    AudioProcessor.wait_for_completion E fuel edit_id poll_interval max_wait_time w = Some (o, w')
    /\ (count_gets (requests_of (events w')) <= count_gets (requests_of (events w)) + n)%nat.
Proof.
  intros Hcausal Hint Hcover Hfuel.
  unfold AudioProcessor.wait_for_completion.
  apply wait_loop_bound; try assumption. lia.
Qed.

(** X11. A waiting time that is zero or negative times out at once:
    [Edit job timed out] is raised before any status query. *)
Theorem wait_for_completion_no_time fuel edit_id poll_interval max_wait_time w :
  max_wait_time <= 0 ->
  AudioProcessor.wait_for_completion E (S fuel) edit_id poll_interval max_wait_time w =
  Some (Raise (Exception "Edit job timed out"), w).
Proof.
  intros Hmax. unfold AudioProcessor.wait_for_completion.
  apply wait_loop_timeout. lia.
Qed.

(** X12. A status request that is answered with an error status or cannot
    be made ends the polling at once: an exception is raised after that one
    query, with no retry and no sleep.  It is [Exception('Failed to get edit
    status: ...')] around the text of the HTTP error for an error status,
    and around [str(e)] for a request that failed without a response. *)
Theorem wait_loop_gives_up_on_request_failure fuel edit_id poll_interval max_wait_time start_time w :
  now w - start_time < max_wait_time ->
  reply_fails (serve E (requests_of (events w)) (GetEdit edit_id)) = true ->
  exists raised,
    AudioProcessor.wait_loop E (S fuel) edit_id poll_interval max_wait_time start_time w =
    Some (Raise raised, answered E (GetEdit edit_id) w)
    /\ (forall r, serve E (requests_of (events w)) (GetEdit edit_id) = Responded r ->
                  raised = Exception ("Failed to get edit status: " +:+ resp_error r))
    /\ (forall e, serve E (requests_of (events w)) (GetEdit edit_id) = Failed e ->
                  exc_response e = None ->
                  raised = Exception ("Failed to get edit status: " +:+ exc_str e)).
Proof.
  intros Hearly Hfail. cbn [AudioProcessor.wait_loop].
  destruct (Z.ltb_spec (now w - start_time) max_wait_time); [|lia].
  rewrite get_edit_status_is_exchange, exchange_run. unfold exchange_outcome.
  destruct (serve E _ _) as [r|e]; cbn [reply_fails] in Hfail.
  - apply negb_true_iff in Hfail. rewrite Hfail.
    eexists. split; [reflexivity|]. split.
    + intros r' [= <-]. reflexivity.
    + intros e [=].
  - eexists. split; [reflexivity|]. split.
    + intros r [=].
    + intros e' [= <-] Hnone. apply handled_without_response. exact Hnone.
Qed.

(** X13. Only the exact strings [SUCCESS] and [FAILURE] end the polling:
    after a 2xx reply whose [status] is anything else (another string, a
    different capitalisation, a non-string), the loop sleeps one interval and
    goes round again. *)
Theorem wait_loop_other_status_is_pending fuel edit_id poll_interval max_wait_time start_time w
    code body err st :
  now w - start_time < max_wait_time ->
  0 <= poll_interval ->
  serve E (requests_of (events w)) (GetEdit edit_id) = Responded (Response code body err) ->
  resp_ok (Response code body err) = true ->
  subscript body "status" = Return st ->
  st <> JStr "SUCCESS" -> st <> JStr "FAILURE" ->
  AudioProcessor.wait_loop E (S fuel) edit_id poll_interval max_wait_time start_time w =
  AudioProcessor.wait_loop E fuel edit_id poll_interval max_wait_time start_time
    (rested E poll_interval (answered E (GetEdit edit_id) w)).
Proof.
  intros Hearly Hint Hserve Hok Hst Hs Hf. cbn [AudioProcessor.wait_loop].
  destruct (Z.ltb_spec (now w - start_time) max_wait_time); [|lia].
  unfold AudioProcessor.get_edit_status, try_request, bind, http, raise_for_status.
  rewrite Hserve. cbn [resp_body]. rewrite Hok. cbn. rewrite Hst.
  rewrite (is_str_false _ _ Hs), (is_str_false _ _ Hf).
  unfold AudioProcessor.sleep_ms. cbn [now].
  destruct (Z.ltb_spec poll_interval 0); [lia|]. reflexivity.
Qed.

(** X14. A 2xx status reply that has no [status] entry makes the poller
    raise [KeyError('status')] after that one query. *)
Theorem wait_loop_missing_status fuel edit_id poll_interval max_wait_time start_time w
    code fields err :
  now w - start_time < max_wait_time ->
  serve E (requests_of (events w)) (GetEdit edit_id) = Responded (Response code (JObj fields) err) ->
  resp_ok (Response code (JObj fields) err) = true ->
  assoc "status" fields = None ->
  AudioProcessor.wait_loop E (S fuel) edit_id poll_interval max_wait_time start_time w =
  Some (Raise (KeyError "status"), answered E (GetEdit edit_id) w).
Proof.
  intros Hearly Hserve Hok Hkey. cbn [AudioProcessor.wait_loop].
  destruct (Z.ltb_spec (now w - start_time) max_wait_time); [|lia].
  unfold AudioProcessor.get_edit_status, try_request, bind, http, raise_for_status.
  rewrite Hserve. cbn [resp_body]. rewrite Hok. cbn. rewrite Hkey. reflexivity.
Qed.

End PollerEdges.

Lemma wait_for_completion_terminates_witness :
  exists o w',
    AudioProcessor.wait_for_completion
      (scripted [job "e1" "PENDING"; job "e1" "QUEUED"] (job "e1" "PENDING") (ok JNull))
      4 "e1" 2000 5000 world0 = Some (o, w')
    /\ (count_gets (requests_of (events w')) <= count_gets (requests_of (events world0)) + 3)%nat.
Proof.
  apply (wait_for_completion_terminates
           (scripted [job "e1" "PENDING"; job "e1" "QUEUED"] (job "e1" "PENDING") (ok JNull))
           "e1" 2000 5000 3%nat 4%nat world0).
  - apply scripted_causal.
  - lia.
  - cbn. lia.
  - lia.
Defined.

Lemma wait_for_completion_no_time_witness :
  AudioProcessor.wait_for_completion (scripted [job_done "e1" "https://cdn/out.mp3"] JNull (ok JNull))
    1 "e1" 5000 0 world0 =
  Some (Raise (Exception "Edit job timed out"), world0).
Proof.
  apply (wait_for_completion_no_time
           (scripted [job_done "e1" "https://cdn/out.mp3"] JNull (ok JNull))
           0%nat "e1" 5000 0 world0).
  lia.
Defined.

Lemma wait_loop_gives_up_on_request_failure_witness :
  exists raised,
    AudioProcessor.wait_loop (dir_env []) 1 "e1" 5000 300000 0 world0 =
    Some (Raise raised, answered (dir_env []) (GetEdit "e1") world0)
    /\ (forall r,
          serve (dir_env []) (requests_of (events world0)) (GetEdit "e1") = Responded r ->
          raised = Exception ("Failed to get edit status: " +:+ resp_error r))
    /\ (forall e,
          serve (dir_env []) (requests_of (events world0)) (GetEdit "e1") = Failed e ->
          exc_response e = None ->
          raised = Exception ("Failed to get edit status: " +:+ exc_str e)).
Proof.
  apply (wait_loop_gives_up_on_request_failure (dir_env []) 0%nat "e1" 5000 300000 0 world0).
  - cbn. lia.
  - reflexivity.
Defined.

Lemma wait_loop_other_status_is_pending_witness :
  AudioProcessor.wait_loop (scripted [job "e1" "success"] (job "e1" "SUCCESS") (ok JNull))
    2 "e1" 5000 300000 0 world0 =
  AudioProcessor.wait_loop (scripted [job "e1" "success"] (job "e1" "SUCCESS") (ok JNull))
    1 "e1" 5000 300000 0
    (rested (scripted [job "e1" "success"] (job "e1" "SUCCESS") (ok JNull)) 5000
       (answered (scripted [job "e1" "success"] (job "e1" "SUCCESS") (ok JNull))
          (GetEdit "e1") world0)).
Proof.
  apply (wait_loop_other_status_is_pending
           (scripted [job "e1" "success"] (job "e1" "SUCCESS") (ok JNull))
           1%nat "e1" 5000 300000 0 world0 200 (job "e1" "success") "" (JStr "success")).
  - cbn. lia.
  - lia.
  - reflexivity.
  - reflexivity.
  - reflexivity.
  - discriminate.
  - discriminate.
Defined.

Lemma wait_loop_missing_status_witness :
  AudioProcessor.wait_loop (scripted [JObj [("id", JStr "e1")]] JNull (ok JNull))
    1 "e1" 5000 300000 0 world0 =
  Some (Raise (KeyError "status"), World 0 [Http 0 (GetEdit "e1")]).
Proof.
  apply (wait_loop_missing_status (scripted [JObj [("id", JStr "e1")]] JNull (ok JNull))
           0%nat "e1" 5000 300000 0 world0 200 [("id", JStr "e1")] "").
  - cbn. lia.
  - reflexivity.
  - reflexivity.
  - reflexivity.
Defined.

(** ** The command table and the driver *)

Lemma get_command_in table command entry :
  InteractiveAudioProcessor.get_command table command = Some entry -> In (command, entry) table.
Proof.
  induction table as [|[k e] table IH]; [discriminate|].
  cbn. destruct (String.eqb_spec command k) as [->|Hne].
  - intros [= ->]. left. reflexivity.
  - intros Hget. right. apply IH. exact Hget.
Qed.

Lemma in_get_command table command entry :
  NoDup table.*1 -> In (command, entry) table ->
  InteractiveAudioProcessor.get_command table command = Some entry.
Proof.
  induction table as [|[k e] table IH]; intros Hnd Hin; [destruct Hin|].
  cbn in Hnd. apply NoDup_cons in Hnd as [Hfresh Hnd].
  cbn. destruct Hin as [[= -> ->]|Hin].
  - rewrite String.eqb_refl. reflexivity.
  - destruct (String.eqb_spec command k) as [->|Hne]; [|apply IH; assumption].
    exfalso. apply Hfresh. apply list_elem_of_In.
    change k with (fst (k, entry)). apply in_map. exact Hin.
Qed.

(** [process_audio] raises nothing but what its handler raises. *)
Lemma process_audio_raise E files config w e :
  fst (AudioProcessor.process_audio E files config w) = Raise e ->
  (exists text, e = Exception text) \/ (exists text, e = AttributeError text).
Proof.
  rewrite process_audio_outcome. unfold exchange_outcome.
  destruct (serve E _ _) as [r|e']; [destruct (resp_ok r)|].
  - discriminate.
  - intros [= <-]. left. eexists. reflexivity.
  - intros [= <-]. exact (handled_cases E "Failed to process audio: " e').
Qed.

Ltac unfold_methods H :=
  unfold AudioProcessor.remove_silences, AudioProcessor.remove_stutters,
    AudioProcessor.remove_fillers, AudioProcessor.remove_mouth_sounds,
    AudioProcessor.remove_hesitations, AudioProcessor.denoise_audio,
    AudioProcessor.preserve_music, AudioProcessor.reduce_breath_sounds,
    AudioProcessor.normalize_audio, AudioProcessor.enhance_with_ai,
    AudioProcessor.transcribe_audio, AudioProcessor.enhance_audio_comprehensive in H.

(** X15. No command is listed twice in [function_map], so looking a command
    up finds an entry exactly when the table lists that command with that
    entry; the lookup is by the exact string. *)
Theorem function_map_lookup :
  NoDup InteractiveAudioProcessor.function_map.*1
  /\ forall command entry,
       InteractiveAudioProcessor.get_command InteractiveAudioProcessor.function_map command =
       Some entry
       <-> In (command, entry) InteractiveAudioProcessor.function_map.
Proof.
  assert (Hnd : NoDup InteractiveAudioProcessor.function_map.*1) by distinct_keys.
  split; [exact Hnd|].
  intros command entry. split.
  - apply get_command_in.
  - apply in_get_command. exact Hnd.
Qed.

Ltac dispatch_case E op url :=
  eexists; split; [|split];
  [ apply (invoke_events E op (OneFile url)); reflexivity
  | apply map_union_subseteq_l
  | let Hraise := fresh "Hraise" in
    let text := fresh "text" in
    intros ? Hraise; cbn in Hraise; unfold_methods Hraise;
    apply process_audio_raise in Hraise as [[text [=]]|[text [=]]] ].

(** X16. Every command of [function_map] names a method that exists and
    stores arguments that fit it: the call never ends in a type error, it
    creates exactly one job, for the uploaded file alone, and the
    configuration of that job holds every entry of the command's own
    dictionary. *)
Theorem every_command_dispatches E command entry signed_url w :
  InteractiveAudioProcessor.get_command InteractiveAudioProcessor.function_map command =
  Some entry ->
  exists cfg,
    events (snd (InteractiveAudioProcessor.call_method E (func entry) signed_url (params entry) w)) =
    Http (now w) (PostEdits (Payload [signed_url] cfg)) :: events w
    /\ entry_overrides (params entry) ⊆ cfg
    /\ forall msg,
         fst (InteractiveAudioProcessor.call_method E (func entry) signed_url (params entry) w)
         <> Raise (TypeError msg).
Proof.
  intros Hget. apply get_command_in in Hget.
  unfold InteractiveAudioProcessor.function_map in Hget.
  destruct Hget as [[= <- <-]|Hget]; [dispatch_case E (DenoiseAudio false) signed_url|].
  destruct Hget as [[= <- <-]|Hget]; [dispatch_case E RemoveSilences signed_url|].
  destruct Hget as [[= <- <-]|Hget]; [dispatch_case E RemoveStutters signed_url|].
  destruct Hget as [[= <- <-]|Hget]; [dispatch_case E RemoveFillers signed_url|].
  destruct Hget as [[= <- <-]|Hget]; [dispatch_case E RemoveMouthSounds signed_url|].
  destruct Hget as [[= <- <-]|Hget]; [dispatch_case E RemoveHesitations signed_url|].
  destruct Hget as [[= <- <-]|Hget]; [dispatch_case E (ReduceBreathSounds (-80)) signed_url|].
  destruct Hget as [[= <- <-]|Hget]; [dispatch_case E (NormalizeAudio (-16)) signed_url|].
  destruct Hget as [[= <- <-]|Hget]; [dispatch_case E EnhanceWithAi signed_url|].
  destruct Hget as [[= <- <-]|Hget]; [dispatch_case E PreserveMusic signed_url|].
  destruct Hget as [[= <- <-]|Hget]; [dispatch_case E TranscribeAudio signed_url|].
  destruct Hget as [[= <- <-]|Hget]; [dispatch_case E EnhanceAudioComprehensive signed_url|].
  destruct Hget.
Qed.

Lemma every_command_dispatches_witness :
  exists cfg,
    events (snd (InteractiveAudioProcessor.call_method (scripted [] JNull (ok (job "e1" "PENDING")))
                   "enhance_audio_comprehensive" "https://bucket/a.mp3?sig=1"
                   [ADict (dict_literal [("export_format", JStr "auto");
                                         ("transcription", JBool true)])] world0)) =
    Http (now world0) (PostEdits (Payload ["https://bucket/a.mp3?sig=1"] cfg)) :: events world0
    /\ dict_literal [("export_format", JStr "auto"); ("transcription", JBool true)] ⊆ cfg
    /\ forall msg,
         fst (InteractiveAudioProcessor.call_method (scripted [] JNull (ok (job "e1" "PENDING")))
                "enhance_audio_comprehensive" "https://bucket/a.mp3?sig=1"
                [ADict (dict_literal [("export_format", JStr "auto");
                                      ("transcription", JBool true)])] world0)
         <> Raise (TypeError msg).
Proof.
  apply (every_command_dispatches (scripted [] JNull (ok (job "e1" "PENDING")))
           "comprehensive"
           (CommandEntry "enhance_audio_comprehensive" "Comprehensive Enhancement"
              [ADict (dict_literal [("export_format", JStr "auto"); ("transcription", JBool true)])])
           "https://bucket/a.mp3?sig=1" world0).
  reflexivity.
Defined.

(** *** Nothing escapes a command *)

Lemma stays_bind {A B} (m : M A) (k : A -> M B) w :
  stays (fst (m w)) -> (forall a w', stays (fst (k a w'))) -> stays (fst (bind m k w)).
Proof.
  intros Hm Hk. unfold bind. destruct (m w) as [[a|e] w']; [apply Hk|exact Hm].
Qed.

Lemma stays_subscript d k w : stays (fst (lift (subscript d k) w)).
Proof.
  unfold lift, subscript. destruct d; try exact I.
  destruct (assoc k fields); exact I.
Qed.

Lemma stays_handled {A} E prefix e : stays (A := A) (Raise (handled E prefix e)).
Proof.
  destruct (handled_cases E prefix e) as [[text ->]|[text ->]]; exact I.
Qed.

Lemma stays_exchange E r prefix w : stays (fst (exchange E r prefix w)).
Proof.
  rewrite exchange_run. cbn [fst]. unfold exchange_outcome.
  destruct (serve E _ _) as [resp|e]; [destruct (resp_ok resp); exact I|].
  apply stays_handled.
Qed.

Lemma stays_process_audio E files config w :
  stays (fst (AudioProcessor.process_audio E files config w)).
Proof. rewrite process_audio_is_exchange. apply stays_exchange. Qed.

Lemma stays_try_request {A} (m : M A) (h : request_exception -> M A) w :
  stays (fst (m w)) -> (forall e w', stays (fst (h e w'))) ->
  stays (fst (try_request m h w)).
Proof.
  intros Hm Hh. unfold try_request.
  destruct (m w) as [[a|[]] w']; cbn in *; auto.
Qed.

Lemma stays_http E r w : stays (fst (http E r w)).
Proof. unfold http. destruct (serve E _ _); exact I. Qed.

Lemma stays_raise_for_status r w : stays (fst (raise_for_status r w)).
Proof. unfold raise_for_status. destruct (resp_ok r); exact I. Qed.

Lemma stays_upload_file E file_path filename w :
  stays (fst (AudioProcessor.upload_file E file_path filename w)).
Proof.
  unfold AudioProcessor.upload_file.
  apply stays_try_request.
  - apply stays_bind; [apply stays_http|intros upload_response w1].
    apply stays_bind; [apply stays_raise_for_status|intros [] w2].
    apply stays_bind; [apply stays_subscript|intros signed_url w3].
    apply stays_bind.
    { unfold AudioProcessor.open_read. destruct (read_file E file_path); exact I. }
    intros file_data w4.
    destruct signed_url; try exact I.
    apply stays_bind; [apply stays_http|intros upload_put_response w5].
    apply stays_bind; [apply stays_raise_for_status|intros [] w6].
    exact I.
  - intros e w'. rewrite handler_raises. apply stays_handled.
Qed.

Lemma stays_call_method E f url ps w :
  stays (fst (InteractiveAudioProcessor.call_method E f url ps w)).
Proof.
  unfold InteractiveAudioProcessor.call_method.
  destruct ps as [|[b|z|d] [|[b'|z'|d'] [|? ?]]]; try exact I;
    repeat (match goal with
            | |- context [if ?c then _ else _] => destruct c
            end);
    try exact I; apply stays_process_audio.
Qed.

Lemma stays_wait_loop E fuel edit_id poll_interval max_wait_time start_time :
  forall w o w',
    AudioProcessor.wait_loop E fuel edit_id poll_interval max_wait_time start_time w = Some (o, w') ->
    stays o.
Proof.
  induction fuel as [|fuel IH]; intros w o w' Hrun; [discriminate|].
  cbn [AudioProcessor.wait_loop] in Hrun.
  destruct (now w - start_time <? max_wait_time); [|injection Hrun as <- _; exact I].
  pose proof (stays_exchange E (GetEdit edit_id) "Failed to get edit status: " w) as Hraise.
  rewrite <- get_edit_status_is_exchange in Hraise.
  destruct (AudioProcessor.get_edit_status E edit_id w) as [[status|e] w1].
  2:{ injection Hrun as <- _. exact Hraise. }
  destruct (subscript status "status") as [st|e] eqn:Hst.
  2:{ injection Hrun as <- _.
      pose proof (stays_subscript status "status" w) as Hs.
      unfold lift in Hs. rewrite Hst in Hs. exact Hs. }
  destruct (AudioProcessor.is_str st "SUCCESS"); [injection Hrun as <- _; exact I|].
  destruct (AudioProcessor.is_str st "FAILURE"); [injection Hrun as <- _; exact I|].
  unfold AudioProcessor.sleep_ms in Hrun.
  destruct (poll_interval <? 0); [injection Hrun as <- _; exact I|].
  exact (IH _ _ _ Hrun).
Qed.

Lemma report_error_returns r :
  stays (fst r) -> fst (InteractiveAudioProcessor.report_error r) = Return tt.
Proof.
  destruct r as [[[]|e] w]; intros Hs; [reflexivity|].
  destruct e; try reflexivity. destruct Hs.
Qed.

(** X17. No error leaves [process_audio_file]: whatever the service, the
    file system and the clock do, a command that finishes returns normally,
    its failure, if any, having been printed.  (The download step is taken
    not to exit the interpreter.) *)
Theorem process_audio_file_returns E py_str download_and_report fuel command w o w' :
  (forall filename cmd result w0, stays (fst (download_and_report filename cmd result w0))) ->
  InteractiveAudioProcessor.process_audio_file E py_str download_and_report fuel command w =
  Some (o, w') ->
  o = Return tt.
Proof.
  intros Hdl. unfold InteractiveAudioProcessor.process_audio_file.
  destruct (InteractiveAudioProcessor.get_command _ command) as [entry|];
    [|intros [= <- _]; reflexivity].
  cbn [bind print fst snd].
  destruct (InteractiveAudioProcessor.find_audio_file E) as [[file_path filename]|];
    [|intros [= <- _]; reflexivity].
  match goal with
  | |- context [bind (AudioProcessor.upload_file E file_path filename) ?k ?w0] =>
      assert (Hstays : stays (fst (bind (AudioProcessor.upload_file E file_path filename) k w0)));
      [|destruct (bind (AudioProcessor.upload_file E file_path filename) k w0)
          as [[edit_id|e] w1]]
  end.
  { repeat (first [ apply stays_bind; [|intros ? ?]
                  | apply stays_upload_file | apply stays_call_method
                  | apply stays_subscript | exact I ]). }
  - destruct (AudioProcessor.wait_for_completion E fuel edit_id 5000 300000 w1)
      as [[[result|e] w2]|] eqn:Hwait; [| |discriminate].
    + intros [= Heq]. change (fst (o, w') = Return tt). rewrite <- Heq.
      apply (report_error_returns (download_and_report filename command result w2)).
      apply Hdl.
    + intros [= Heq]. change (fst (o, w') = Return tt). rewrite <- Heq.
      apply (report_error_returns (Raise e, w2)).
      exact (stays_wait_loop _ _ _ _ _ _ _ _ _ Hwait).
  - intros [= Heq]. change (fst (o, w') = Return tt). rewrite <- Heq.
    apply (report_error_returns (Raise e, w1)). exact Hstays.
Qed.

Lemma process_audio_file_returns_witness :
  match InteractiveAudioProcessor.process_audio_file (dir_env ["song.mp3"]) (fun _ => "")
          (fun _ _ _ => ret tt) 0 "rm bg" world0 with
  | Some (o, _) => o = Return tt
  | None => False
  end.
Proof.
  destruct (InteractiveAudioProcessor.process_audio_file (dir_env ["song.mp3"]) (fun _ => "")
              (fun _ _ _ => ret tt) 0 "rm bg" world0) as [[o w']|] eqn:Hrun.
  - apply (process_audio_file_returns (dir_env ["song.mp3"]) (fun _ => "")
             (fun _ _ _ => ret tt) 0%nat "rm bg" world0 o w'); [|exact Hrun].
    intros filename cmd result w0. exact I.
  - vm_compute in Hrun. discriminate Hrun.
Defined.

(** X18. When the signed-URL request fails, the command ends there: the
    driver prints the error and returns, and that request is the only one it
    has made; no job is created and nothing is polled. *)
Theorem failed_upload_creates_no_job E py_str download_and_report fuel command entry
    file_path filename w :
  InteractiveAudioProcessor.get_command InteractiveAudioProcessor.function_map command =
  Some entry ->
  InteractiveAudioProcessor.find_audio_file E = Some (file_path, filename) ->
  reply_fails (serve E (requests_of (events w)) (PostUpload filename)) = true ->
  exists w',
    InteractiveAudioProcessor.process_audio_file E py_str download_and_report fuel command w =
    Some (Return tt, w')
    /\ requests_of (events w') = PostUpload filename :: requests_of (events w).
Proof.
  intros Hget Hfind Hfail.
  unfold InteractiveAudioProcessor.process_audio_file.
  rewrite Hget. cbn [bind print fst snd]. rewrite Hfind.
  match goal with
  | |- context [bind (AudioProcessor.upload_file E file_path filename) ?k ?w0] =>
      unfold bind at 1;
      rewrite (upload_file_refused E file_path filename w0 Hfail)
  end.
  match goal with
  | |- context [upload_failure E ?reply] =>
      destruct (upload_failure_cases E reply) as [[text ->]|[text ->]]
  end; cbn; eexists; split; reflexivity.
Qed.

Lemma failed_upload_creates_no_job_witness :
  exists w',
    InteractiveAudioProcessor.process_audio_file (dir_env ["song.mp3"]) (fun _ => "")
      (fun _ _ _ => ret tt) 0 "normalize" world0 =
    Some (Return tt, w')
    /\ requests_of (events w') = PostUpload "song.mp3" :: requests_of (events world0).
Proof.
  apply (failed_upload_creates_no_job (dir_env ["song.mp3"]) (fun _ => "")
           (fun _ _ _ => ret tt) 0%nat "normalize"
           (CommandEntry "normalize_audio" "Normalize Audio Levels"
              [AInt (-16); InteractiveAudioProcessor.auto_format])
           "song.mp3" "song.mp3" world0); reflexivity.
Defined.

(** *** What [find_audio_file] returns *)

Lemma find_in_some E exts f n :
  InteractiveAudioProcessor.find_in E exts = Some (f, n) ->
  n = InteractiveAudioProcessor.basename f
  /\ exists (i : nat) ext rest,
       exts !! i = Some ext
       /\ glob E ("*" +:+ ext) = f :: rest
       /\ forall (j : nat) ext', (j < i)%nat -> exts !! j = Some ext' -> glob E ("*" +:+ ext') = [].
Proof.
  induction exts as [|ext0 exts IH]; [discriminate|].
  cbn [InteractiveAudioProcessor.find_in].
  destruct (glob E ("*" +:+ ext0)) as [|f0 rest0] eqn:Hglob.
  - intros Hrest. destruct (IH Hrest) as (Hn & i & ext & rest & Hi & Hg & Hbefore).
    split; [exact Hn|]. exists (S i), ext, rest. split; [exact Hi|]. split; [exact Hg|].
    intros [|j] ext' Hj Hlook.
    + injection Hlook as <-. exact Hglob.
    + apply (Hbefore j ext'); [lia|exact Hlook].
  - intros [= <- <-]. split; [reflexivity|].
    exists 0%nat, ext0, rest0. split; [reflexivity|]. split; [exact Hglob|].
    intros j ext' Hj. lia.
Qed.

Lemma find_in_none_inv E exts :
  InteractiveAudioProcessor.find_in E exts = None ->
  forall ext, In ext exts -> glob E ("*" +:+ ext) = [].
Proof.
  induction exts as [|ext0 exts IH]; intros Hnone ext Hin; [destruct Hin|].
  cbn [InteractiveAudioProcessor.find_in] in Hnone.
  destruct (glob E ("*" +:+ ext0)) as [|f0 rest0] eqn:Hglob; [|discriminate].
  destruct Hin as [<-|Hin]; [exact Hglob|apply IH; assumption].
Qed.

(** X19. What [find_audio_file] returns is always the first name [glob]
    gives for one of the five patterns, every pattern tried before it having
    no match, together with its base name; and it returns nothing only when
    none of the five patterns has a match. *)
Theorem find_audio_file_sound E :
  (forall f n,
     InteractiveAudioProcessor.find_audio_file E = Some (f, n) ->
     n = InteractiveAudioProcessor.basename f
     /\ exists (i : nat) ext rest,
          InteractiveAudioProcessor.supported_extensions !! i = Some ext
          /\ glob E ("*" +:+ ext) = f :: rest
          /\ forall (j : nat) ext', (j < i)%nat ->
               InteractiveAudioProcessor.supported_extensions !! j = Some ext' ->
               glob E ("*" +:+ ext') = [])
  /\ (InteractiveAudioProcessor.find_audio_file E = None ->
      forall ext, In ext InteractiveAudioProcessor.supported_extensions ->
                  glob E ("*" +:+ ext) = []).
Proof.
  split.
  - intros f n. apply find_in_some.
  - apply find_in_none_inv.
Qed.

Lemma find_audio_file_sound_witness :
  "take1.wav" = InteractiveAudioProcessor.basename "take1.wav"
  /\ exists (i : nat) ext rest,
       InteractiveAudioProcessor.supported_extensions !! i = Some ext
       /\ glob (dir_env ["notes.txt"; ".cache.mp3"; "take1.wav"; "take2.wav"]) ("*" +:+ ext) =
          "take1.wav" :: rest
       /\ forall (j : nat) ext', (j < i)%nat ->
            InteractiveAudioProcessor.supported_extensions !! j = Some ext' ->
            glob (dir_env ["notes.txt"; ".cache.mp3"; "take1.wav"; "take2.wav"]) ("*" +:+ ext') = [].
Proof.
  apply (proj1 (find_audio_file_sound
                  (dir_env ["notes.txt"; ".cache.mp3"; "take1.wav"; "take2.wav"]))
           "take1.wav" "take1.wav").
  reflexivity.
Defined.

(** ** The session loop *)

Section SessionLoop.

Variable E : env.
Variable py_str : json -> string.
Variable download_and_report : string -> string -> json -> M unit.
Variable clean : string -> string.

Lemma requests_of_help w : requests_of (events (snd (show_help w))) = requests_of (events w).
Proof. reflexivity. Qed.

(** X20. A session in which no line names a command of the table never
    touches the network and never fails: whenever it ends (on [quit],
    [exit] or Ctrl-C) it returns normally, having made no request and
    spent no time, whatever else was typed. *)
Theorem session_without_command_is_offline turns poll_fuel stdin :
  Forall (names_no_command clean) stdin ->
  forall w o w',
    run_loop E py_str download_and_report clean turns poll_fuel stdin w = Some (o, w') ->
    o = Return tt
    /\ requests_of (events w') = requests_of (events w)
    /\ now w' = now w.
Proof.
  revert stdin.
  induction turns as [|turns IH]; intros stdin Hidle w o w' Hrun; [discriminate|].
  cbn [run_loop] in Hrun.
  destruct stdin as [|[s|] rest].
  - apply IH in Hrun as (Ho & Hreq & Hnow); [|constructor].
    split; [exact Ho|]. split; [rewrite Hreq|rewrite Hnow]; reflexivity.
  - apply Forall_cons in Hidle as [Hs Hrest]. cbv [names_no_command] in Hs.
    destruct (String.eqb (clean s) "quit" || String.eqb (clean s) "exit").
    { injection Hrun as <- <-. repeat split. }
    destruct (String.eqb (clean s) "help").
    { apply IH in Hrun as (Ho & Hreq & Hnow); [|exact Hrest].
      split; [exact Ho|]. split; [rewrite Hreq|rewrite Hnow]; reflexivity. }
    destruct (String.eqb (clean s) "").
    { apply IH in Hrun as (Ho & Hreq & Hnow); [|exact Hrest].
      split; [exact Ho|]. split; [rewrite Hreq|rewrite Hnow]; reflexivity. }
    unfold InteractiveAudioProcessor.process_audio_file in Hrun.
    rewrite Hs in Hrun. cbn [print] in Hrun.
    apply IH in Hrun as (Ho & Hreq & Hnow); [|exact Hrest].
    split; [exact Ho|]. split; [rewrite Hreq|rewrite Hnow]; reflexivity.
  - injection Hrun as <- <-. repeat split.
Qed.

(** X21. Once standard input is exhausted the loop of [run] never ends:
    each call of [input] raises [EOFError], which is caught as an unexpected
    error and printed, and the loop asks again. *)
Theorem run_loop_spins_at_end_of_input turns poll_fuel w :
  run_loop E py_str download_and_report clean turns poll_fuel [] w = None.
Proof.
  revert w. induction turns as [|turns IH]; intros w; [reflexivity|].
  cbn [run_loop]. apply IH.
Qed.

(** X22. [quit], [exit] and Ctrl-C end the session at once, with the
    goodbye line: what follows on standard input is never read, and one turn
    of the loop is enough. *)
Theorem run_loop_stops_on_quit turns poll_fuel item rest w :
  match item with
  | Line s => clean s = "quit" \/ clean s = "exit"
  | Interrupt => True
  end ->
  exists line,
    run_loop E py_str download_and_report clean (S turns) poll_fuel (item :: rest) w =
    Some (Return tt, World (now w) (Printed line :: Printed prompt :: events w)).
Proof.
  intros Hitem. cbn [run_loop]. destruct item as [s|].
  - destruct Hitem as [-> | ->]; cbn; eexists; reflexivity.
  - eexists. reflexivity.
Qed.

End SessionLoop.

Lemma session_without_command_is_offline_witness :
  Return tt = Return tt
  /\ requests_of
       (events (World 0
                  (Printed (nl +:+ "👋 Goodbye! Thanks for using the Audio Processor!")
                   :: Printed prompt
                   :: Printed ("❌ Unknown command. Type " +:+ dq +:+ "help" +:+ dq +:+
                               " to see available commands.")
                   :: Printed prompt
                   :: Printed ("❌ Please enter a command. Type " +:+ dq +:+ "help" +:+ dq +:+
                               " for options.")
                   :: [Printed prompt]))) =
     requests_of (events world0)
  /\ 0 = now world0.
Proof.
  apply (session_without_command_is_offline (dir_env ["song.mp3"]) (fun _ => "")
           (fun _ _ _ => ret tt) (fun s => s) 3%nat 0%nat
           [Line ""; Line "rm everything"; Line "quit"; Line "help"] ltac:(repeat constructor)
           world0 (Return tt)).
  reflexivity.
Defined.

Lemma run_loop_stops_on_quit_witness :
  exists line,
    run_loop (dir_env ["song.mp3"]) (fun _ => "") (fun _ _ _ => ret tt) (fun s => s) 1 0
      [Line "exit"; Line "rm bg"] world0 =
    Some (Return tt, World (now world0) (Printed line :: Printed prompt :: events world0)).
Proof.
  apply (run_loop_stops_on_quit (dir_env ["song.mp3"]) (fun _ => "") (fun _ _ _ => ret tt)
           (fun s => s) 0%nat 0%nat (Line "exit") [Line "rm bg"] world0).
  right. reflexivity.
Defined.

(** ** A command from end to end *)

Section Pipeline.

Variable E : env.

Lemma upload_file_succeeds file_path filename w seen r1 url data r2 :
  requests_of (events w) = seen ->
  serve E seen (PostUpload filename) = Responded r1 ->
  resp_ok r1 = true ->
  subscript (resp_body r1) "signedUrl" = Return (JStr url) ->
  read_file E file_path = Some data ->
  serve E (PostUpload filename :: seen) (PutBytes url data) = Responded r2 ->
  resp_ok r2 = true ->
  exists w',
    AudioProcessor.upload_file E file_path filename w = (Return url, w')
    /\ requests_of (events w') = PutBytes url data :: PostUpload filename :: seen.
Proof.
  intros <- Hfirst Hok Hurl Hread Hsecond Hok2.
  rewrite (upload_file_second_step E _ _ _ _ _ _ Hfirst Hok Hurl Hread).
  cbv zeta.
  change (requests_of (events (answered E (PostUpload filename) w)))
    with (PostUpload filename :: requests_of (events w)).
  rewrite Hsecond. cbn [reply_fails]. rewrite Hok2. cbn [negb].
  eexists. split; reflexivity.
Qed.

Lemma process_audio_succeeds files config w seen r :
  requests_of (events w) = seen ->
  serve E seen (PostEdits (Payload (AudioProcessor.file_array files) (or_empty config))) =
  Responded r ->
  resp_ok r = true ->
  exists w',
    AudioProcessor.process_audio E files config w = (Return (resp_body r), w')
    /\ requests_of (events w') =
       PostEdits (Payload (AudioProcessor.file_array files) (or_empty config)) :: seen.
Proof.
  intros <- Hserve Hok.
  exists (snd (AudioProcessor.process_audio E files config w)). split.
  - rewrite (surjective_pairing (AudioProcessor.process_audio E files config w)) at 1.
    rewrite process_audio_outcome, Hserve. unfold exchange_outcome. rewrite Hok. reflexivity.
  - rewrite process_audio_world. reflexivity.
Qed.

(** Each command of the table is a call of [process_audio] with
    a configuration that holds the command's own dictionary. *)
Lemma command_is_process_audio command entry :
  InteractiveAudioProcessor.get_command InteractiveAudioProcessor.function_map command =
  Some entry ->
  exists cfg,
    entry_overrides (params entry) ⊆ cfg
    /\ forall url w,
         InteractiveAudioProcessor.call_method E (func entry) url (params entry) w =
         AudioProcessor.process_audio E (OneFile url) (Some cfg) w.
Proof.
  intros Hget. apply get_command_in in Hget.
  unfold InteractiveAudioProcessor.function_map in Hget.
  repeat (destruct Hget as [[= <- <-]|Hget];
          [eexists; split; [|intros url w; reflexivity]; apply map_union_subseteq_l|]).
  destruct Hget.
Qed.

End Pipeline.

Section PipelineClaim.

Variable E : env.
Variable py_str : json -> string.
Variable download_and_report : string -> string -> json -> M unit.

(** X23. When every step succeeds, a command chains the steps on one
    another's results: the file found is uploaded under its base name, the
    job is created for the signed URL that the upload returned and for
    nothing else, with the command's own dictionary in its configuration,
    the job polled is the one whose id the creation returned, and the first
    [SUCCESS] reply is handed to the download step.  Four requests are made,
    in that order. *)
Theorem command_chains_its_steps fuel command entry file_path filename w
    r1 url data r2 rj job_id result :
  let seen := requests_of (events w) in
  let uploaded := PutBytes url data :: PostUpload filename :: seen in
  InteractiveAudioProcessor.get_command InteractiveAudioProcessor.function_map command =
  Some entry ->
  InteractiveAudioProcessor.find_audio_file E = Some (file_path, filename) ->
  serve E seen (PostUpload filename) = Responded r1 ->
  resp_ok r1 = true ->
  subscript (resp_body r1) "signedUrl" = Return (JStr url) ->
  read_file E file_path = Some data ->
  serve E (PostUpload filename :: seen) (PutBytes url data) = Responded r2 ->
  resp_ok r2 = true ->
  (forall cfg, serve E uploaded (PostEdits (Payload [url] cfg)) = Responded rj) ->
  resp_ok rj = true ->
  subscript (resp_body rj) "id" = Return job_id ->
  (forall cfg,
     reports (serve E (PostEdits (Payload [url] cfg) :: uploaded) (GetEdit (py_str job_id)))
       "SUCCESS" result) ->
  exists cfg w4,
    entry_overrides (params entry) ⊆ cfg
    /\ InteractiveAudioProcessor.process_audio_file E py_str download_and_report
         (S fuel) command w =
       Some (InteractiveAudioProcessor.report_error
               (download_and_report filename command result w4))
    /\ requests_of (events w4) =
       GetEdit (py_str job_id) :: PostEdits (Payload [url] cfg) :: uploaded.
Proof.
  intros seen uploaded Hget Hfind Hfirst Hok1 Hurl Hread Hsecond Hok2 Hjob Hokj Hid Hdone.
  destruct (command_is_process_audio E command entry Hget) as (cfg & Hsub & Hcall).
  exists cfg.
  unfold InteractiveAudioProcessor.process_audio_file.
  rewrite Hget. cbn [bind print fst snd]. rewrite Hfind.
  match goal with
  | |- context [bind (AudioProcessor.upload_file E file_path filename) ?k ?w0] =>
      destruct (upload_file_succeeds E file_path filename w0 seen r1 url data r2
                  eq_refl Hfirst Hok1 Hurl Hread Hsecond Hok2) as (w1 & Hup & Hreq1);
      unfold bind at 1; rewrite Hup
  end.
  cbv [bind lift print ret].
  rewrite Hcall.
  match goal with
  | |- context [AudioProcessor.process_audio E (OneFile url) (Some cfg) ?w0] =>
      destruct (process_audio_succeeds E (OneFile url) (Some cfg) w0 uploaded rj
                  Hreq1 (Hjob cfg) Hokj) as (w2 & Hpost & Hreq2);
      rewrite Hpost
  end.
  rewrite Hid.
  unfold AudioProcessor.wait_for_completion.
  match goal with
  | |- context [AudioProcessor.wait_loop E (S fuel) ?id 5000 300000 (now ?w0) ?w0] =>
      assert (Hrep : reports (serve E (requests_of (events w0)) (GetEdit id)) "SUCCESS" result)
        by (change (requests_of (events w0)) with (requests_of (events w2));
            rewrite Hreq2; apply Hdone);
      rewrite (wait_loop_success E fuel id 5000 300000 (now w0) result w0) by (try exact Hrep; lia);
      exists (answered E (GetEdit id) w0)
  end.
  split; [exact Hsub|]. split; [reflexivity|].
  cbn [answered events requests_of omap]. 
  change (GetEdit (py_str job_id) :: requests_of (events w2) =
          GetEdit (py_str job_id) :: PostEdits (Payload [url] cfg) :: uploaded).
  rewrite Hreq2. reflexivity.
Qed.

End PipelineClaim.

Lemma command_chains_its_steps_witness :
  exists cfg w4,
    entry_overrides [InteractiveAudioProcessor.auto_format] ⊆ cfg
    /\ InteractiveAudioProcessor.process_audio_file
         (studio_env ["talk.wav"] "RIFF" "https://bucket/talk.wav?sig=1" "e42" "https://cdn/talk.wav")
         str_of_json (fun _ _ _ => print "saved") 1 "rm silence" world0 =
       Some (InteractiveAudioProcessor.report_error
               (print "saved" w4))
    /\ requests_of (events w4) =
       [ GetEdit "e42";
         PostEdits (Payload ["https://bucket/talk.wav?sig=1"] cfg);
         PutBytes "https://bucket/talk.wav?sig=1" "RIFF";
         PostUpload "talk.wav" ].
Proof.
  apply (command_chains_its_steps
           (studio_env ["talk.wav"] "RIFF" "https://bucket/talk.wav?sig=1" "e42" "https://cdn/talk.wav")
           str_of_json (fun _ _ _ => print "saved") 0%nat "rm silence"
           (CommandEntry "remove_silences" "Remove Long Silences"
              [InteractiveAudioProcessor.auto_format])
           "talk.wav" "talk.wav" world0
           (Response 200 (JObj [("signedUrl", JStr "https://bucket/talk.wav?sig=1")]) "")
           "https://bucket/talk.wav?sig=1" "RIFF"
           (Response 200 JNull "")
           (Response 200 (job "e42" "PENDING") "")
           (JStr "e42")
           (job_done "e42" "https://cdn/talk.wav")); try reflexivity.
  intros cfg. exists 200, "". repeat split.
Defined.

Section PipelineFailure.

Variable E : env.
Variable py_str : json -> string.
Variable download_and_report : string -> string -> json -> M unit.

Lemma process_audio_refused files config w seen :
  requests_of (events w) = seen ->
  reply_fails (serve E seen (PostEdits (Payload (AudioProcessor.file_array files)
                                          (or_empty config)))) = true ->
  exists raised w',
    AudioProcessor.process_audio E files config w = (Raise raised, w')
    /\ ((exists text, raised = Exception text) \/ (exists text, raised = AttributeError text))
    /\ requests_of (events w') =
       PostEdits (Payload (AudioProcessor.file_array files) (or_empty config)) :: seen.
Proof.
  intros <- Hfail.
  rewrite process_audio_is_exchange, exchange_run. unfold exchange_outcome.
  destruct (serve E _ _) as [r|e]; cbn [reply_fails] in Hfail.
  - apply negb_true_iff in Hfail. rewrite Hfail.
    eexists. eexists. split; [reflexivity|]. split; [|reflexivity].
    left. eexists. reflexivity.
  - eexists. eexists. split; [reflexivity|]. split; [|reflexivity].
    exact (handled_cases E "Failed to process audio: " e).
Qed.

(** X24. When the file has been uploaded and the creation of the job is
    refused, the command ends there: the driver prints the error and returns
    normally after three requests (signed URL, transfer, creation); it polls
    nothing and it does not remove what it uploaded. *)
Theorem refused_job_is_not_polled fuel command entry file_path filename w r1 url data r2 :
  let seen := requests_of (events w) in
  let uploaded := PutBytes url data :: PostUpload filename :: seen in
  InteractiveAudioProcessor.get_command InteractiveAudioProcessor.function_map command =
  Some entry ->
  InteractiveAudioProcessor.find_audio_file E = Some (file_path, filename) ->
  serve E seen (PostUpload filename) = Responded r1 ->
  resp_ok r1 = true ->
  subscript (resp_body r1) "signedUrl" = Return (JStr url) ->
  read_file E file_path = Some data ->
  serve E (PostUpload filename :: seen) (PutBytes url data) = Responded r2 ->
  resp_ok r2 = true ->
  (forall cfg, reply_fails (serve E uploaded (PostEdits (Payload [url] cfg))) = true) ->
  exists cfg w',
    InteractiveAudioProcessor.process_audio_file E py_str download_and_report fuel command w =
    Some (Return tt, w')
    /\ requests_of (events w') = PostEdits (Payload [url] cfg) :: uploaded.
Proof.
  intros seen uploaded Hget Hfind Hfirst Hok1 Hurl Hread Hsecond Hok2 Hrefused.
  destruct (command_is_process_audio E command entry Hget) as (cfg & Hsub & Hcall).
  exists cfg.
  unfold InteractiveAudioProcessor.process_audio_file.
  rewrite Hget. cbn [bind print fst snd]. rewrite Hfind.
  match goal with
  | |- context [bind (AudioProcessor.upload_file E file_path filename) ?k ?w0] =>
      destruct (upload_file_succeeds E file_path filename w0 seen r1 url data r2
                  eq_refl Hfirst Hok1 Hurl Hread Hsecond Hok2) as (w1 & Hup & Hreq1);
      unfold bind at 1; rewrite Hup
  end.
  cbv [bind lift print ret].
  rewrite Hcall.
  match goal with
  | |- context [AudioProcessor.process_audio E (OneFile url) (Some cfg) ?w0] =>
      destruct (process_audio_refused (OneFile url) (Some cfg) w0 uploaded
                  Hreq1 (Hrefused cfg)) as (raised & w2 & Hpost & Hkind & Hreq2);
      rewrite Hpost
  end.
  destruct Hkind as [[text ->]|[text ->]];
    cbn; (eexists; split; [reflexivity|]; exact Hreq2).
Qed.

End PipelineFailure.

Lemma refused_job_is_not_polled_witness :
  exists cfg w',
    InteractiveAudioProcessor.process_audio_file
      (no_credit_env ["talk.wav"] "RIFF" "https://bucket/talk.wav?sig=1")
      str_of_json (fun _ _ _ => print "saved") 0 "transcribe" world0 =
    Some (Return tt, w')
    /\ requests_of (events w') =
       [ PostEdits (Payload ["https://bucket/talk.wav?sig=1"] cfg);
         PutBytes "https://bucket/talk.wav?sig=1" "RIFF";
         PostUpload "talk.wav" ].
Proof.
  apply (refused_job_is_not_polled
           (no_credit_env ["talk.wav"] "RIFF" "https://bucket/talk.wav?sig=1")
           str_of_json (fun _ _ _ => print "saved") 0%nat "transcribe"
           (CommandEntry "transcribe_audio" "Transcribe Audio to Text"
              [InteractiveAudioProcessor.auto_format])
           "talk.wav" "talk.wav" world0
           (Response 200 (JObj [("signedUrl", JStr "https://bucket/talk.wav?sig=1")]) "")
           "https://bucket/talk.wav?sig=1" "RIFF"
           (Response 200 JNull "")); reflexivity.
Defined.

(** ** What the poller hands back, and how often it asks *)

Section PollerResults.

Variable E : env.





Lemma spaced_weaken gap from from' times :
  from' <= from -> spaced gap from times -> spaced gap from' times.
Proof.
  intros Hle. induction times as [|t [|t0 earlier] IH]; cbn; intros Hsp.
  - exact I.
  - lia.
  - destruct Hsp as [Hgap Hrest]. split; [exact Hgap|apply IH; exact Hrest].
Qed.

(** Appending earlier times that all lie [gap] before the first later one. *)
Lemma spaced_app gap from mid later t0 :
  spaced gap mid later -> t0 + gap <= mid -> from <= t0 ->
  spaced gap from (later ++ [t0]).
Proof.
  intros Hlater Hgap Hfrom.
  induction later as [|t [|t1 rest] IH]; cbn in *.
  - lia.
  - split; [lia|lia].
  - destruct Hlater as [Hstep Hrest]. split; [exact Hstep|]. apply IH. exact Hrest.
Qed.

Lemma wait_loop_spacing fuel edit_id poll_interval max_wait_time start_time :
  causal E -> 0 <= poll_interval ->
  forall w o w',
    AudioProcessor.wait_loop E fuel edit_id poll_interval max_wait_time start_time w = Some (o, w') ->
    exists new,
      events w' = new ++ events w
      /\ spaced poll_interval (now w) (request_times new).
Proof.
  intros Hcausal Hint.
  induction fuel as [|fuel IH]; intros w o w' Hrun; [discriminate|].
  cbn [AudioProcessor.wait_loop] in Hrun.
  assert (Hone : exists new, events (answered E (GetEdit edit_id) w) = new ++ events w
                 /\ spaced poll_interval (now w) (request_times new)).
  { exists [Http (now w) (GetEdit edit_id)]. split; [reflexivity|]. cbn. lia. }
  destruct (now w - start_time <? max_wait_time).
  2:{ injection Hrun as <- <-. exists []. split; [reflexivity|exact I]. }
  pose proof (get_edit_status_world E edit_id w) as Hworld.
  destruct (AudioProcessor.get_edit_status E edit_id w) as [[status|e] w1];
    cbn [snd] in Hworld; subst w1; [|injection Hrun as <- <-; exact Hone].
  destruct (subscript status "status") as [st|e]; [|injection Hrun as <- <-; exact Hone].
  destruct (AudioProcessor.is_str st "SUCCESS"); [injection Hrun as <- <-; exact Hone|].
  destruct (AudioProcessor.is_str st "FAILURE"); [injection Hrun as <- <-; exact Hone|].
  unfold AudioProcessor.sleep_ms in Hrun.
  destruct (poll_interval <? 0); [injection Hrun as <- <-; exact Hone|].
  apply IH in Hrun as (new & Hev & Hsp).
  exists (new ++ [Slept (now (answered E (GetEdit edit_id) w)) poll_interval;
                  Http (now w) (GetEdit edit_id)]).
  split.
  - rewrite Hev. cbn. rewrite <- app_assoc. reflexivity.
  - unfold request_times. rewrite omap_app. cbn [omap]. fold (request_times new).
    apply (spaced_app _ _ _ _ _ Hsp); [|lia].
    pose proof (now_answered E (GetEdit edit_id) w Hcausal).
    cbn [now rested]. destruct Hcausal as [_ Hlag].
    specialize (Hlag (now (answered E (GetEdit edit_id) w))). lia.
Qed.

(** X26. The status queries of one [wait_for_completion] are at least
    [poll_interval] apart: with a service and a clock that take no negative
    time, the times of the requests it adds to the history, read from the
    latest back, each come a full interval after the one before, and none
    precedes the call. *)
Theorem wait_for_completion_spacing fuel edit_id poll_interval max_wait_time w o w' :
  causal E -> 0 <= poll_interval ->
  AudioProcessor.wait_for_completion E fuel edit_id poll_interval max_wait_time w = Some (o, w') ->
  exists new,
    events w' = new ++ events w
    /\ spaced poll_interval (now w) (request_times new).
Proof.
  intros Hcausal Hint Hrun.
  exact (wait_loop_spacing _ _ _ _ _ Hcausal Hint _ _ _ Hrun).
Qed.

End PollerResults.


Lemma wait_for_completion_spacing_witness :
  exists new,
    [ Http 10000 (GetEdit "e1"); Slept 5000 5000; Http 5000 (GetEdit "e1");
      Slept 0 5000; Http 0 (GetEdit "e1") ] = new ++ events world0
    /\ spaced 5000 (now world0) (request_times new).
Proof.
  apply (wait_for_completion_spacing
           (scripted [job "e1" "PENDING"; job "e1" "PENDING"; job_done "e1" "https://cdn/out.mp3"]
              (job "e1" "PENDING") (ok JNull))
           3%nat "e1" 5000 300000 world0 (Return (job_done "e1" "https://cdn/out.mp3"))
           (World 10000 [ Http 10000 (GetEdit "e1"); Slept 5000 5000; Http 5000 (GetEdit "e1");
                          Slept 0 5000; Http 0 (GetEdit "e1") ])).
  - apply scripted_causal.
  - lia.
  - reflexivity.
Defined.
